(** * nodeBrain: goal decomposition and evidence linking

    A shallow embedding of the Python sources

    - [src/lib/Source_gen.py]          (TextNormalizer, KeywordExtractor,
                                        SearchClient, EvidenceLinker),
    - [backend/services/topicCreate.py] (GoalDecomposer),
    - [backend/routes/roadmap.py]       (the HTTP endpoint),

    together with the properties the specification states about them.

    Python [str] values are modelled by [string]; a character is its code
    point, and the model covers the code points below 256 (the specification
    excludes multi-language input).  On that range [str.lower], [str.isspace]
    and the regular-expression class [\s] are the functions defined in
    [Module Py] below. *)

From Stdlib Require Import Ascii String QArith.
From stdpp Require Import gmap strings list fin_maps.

Local Open Scope string_scope.
Local Open Scope nat_scope.

(** ** Python string methods *)

Module Py.

Definition ord (c : ascii) : nat := nat_of_ascii c.

(** [c.isspace()] / the class [\s]: TAB..CR, FS..US, space, NEL, NBSP. *)
Definition isspace (c : ascii) : bool :=
  let n := ord c in
  ((9 <=? n) && (n <=? 13)) || ((28 <=? n) && (n <=? 32))
  || (n =? 133) || (n =? 160).

(** Upper-case letters below 256: A..Z and the Latin-1 capitals except the
    multiplication sign. *)
Definition isupper (c : ascii) : bool :=
  let n := ord c in
  ((65 <=? n) && (n <=? 90))
  || ((192 <=? n) && (n <=? 222) && negb (n =? 215)).

Definition lower_char (c : ascii) : ascii :=
  if isupper c then ascii_of_nat (ord c + 32) else c.

(** [s.lower()] *)
Fixpoint lower (s : string) : string :=
  match s with
  | EmptyString => EmptyString
  | String c s' => String (lower_char c) (lower s')
  end.

(** [len(s)] *)
Definition len (s : string) : nat := String.length s.

(** [s[n:]] *)
Fixpoint drop (n : nat) (s : string) : string :=
  match n, s with
  | O, _ => s
  | S _, EmptyString => EmptyString
  | S k, String _ s' => drop k s'
  end.

(** [s.startswith(p)] *)
Fixpoint startswith (s p : string) : bool :=
  match p, s with
  | EmptyString, _ => true
  | String _ _, EmptyString => false
  | String a p', String b s' => Ascii.eqb a b && startswith s' p'
  end.

(** [s.endswith(p)] *)
Definition endswith (s p : string) : bool :=
  (len p <=? len s) && String.eqb (drop (len s - len p) s) p.

(** [sub in s] *)
Fixpoint contains (s sub : string) : bool :=
  startswith s sub ||
  match s with
  | EmptyString => false
  | String _ s' => contains s' sub
  end.

(** Leading and trailing runs of characters of a class. *)
Fixpoint lstrip_with (P : ascii -> bool) (s : string) : string :=
  match s with
  | EmptyString => EmptyString
  | String c s' => if P c then lstrip_with P s' else s
  end.

Fixpoint rstrip_with (P : ascii -> bool) (s : string) : string :=
  match s with
  | EmptyString => EmptyString
  | String c s' =>
      match rstrip_with P s' with
      | EmptyString => if P c then EmptyString else String c EmptyString
      | r => String c r
      end
  end.

(** [s.strip()] *)
Definition strip (s : string) : string :=
  rstrip_with isspace (lstrip_with isspace s).

(** [s[:-1]] *)
Fixpoint drop_last (s : string) : string :=
  match s with
  | EmptyString => EmptyString
  | String c EmptyString => EmptyString
  | String c s' => String c (drop_last s')
  end.

(** [s.replace(old, new, count)] for a non-empty [old]; [count = None] is the
    two-argument form that replaces every occurrence.  [skip] counts the
    characters of a replaced occurrence still to be passed over. *)
Fixpoint replace_from (old new : string) (count : option nat) (skip : nat)
    (s : string) : string :=
  match s with
  | EmptyString => EmptyString
  | String c s' =>
      match skip with
      | S k => replace_from old new count k s'
      | O =>
          let allowed := match count with Some O => false | _ => true end in
          if allowed && startswith s old then
            new ++ replace_from old new (Nat.pred <$> count) (len old - 1) s'
          else String c (replace_from old new count 0 s')
      end
  end.

Definition replace (s old new : string) (count : option nat) : string :=
  replace_from old new count 0 s.

(** [len(s.split())]: the number of maximal runs of non-space characters. *)
Fixpoint count_words_from (in_word : bool) (s : string) : nat :=
  match s with
  | EmptyString => 0
  | String c s' =>
      if isspace c then count_words_from false s'
      else (if in_word then 0 else 1) + count_words_from true s'
  end.

Definition count_words (s : string) : nat := count_words_from false s.

(** [s.split(sep, 1)[1]] for a one-character [sep]: what follows its first
    occurrence, [None] when there is none (the index is out of range). *)
Fixpoint after_first (sep : ascii) (s : string) : option string :=
  match s with
  | EmptyString => None
  | String c s' => if Ascii.eqb c sep then Some s' else after_first sep s'
  end.

(** [x in l] for a list of strings. *)
Definition in_list (x : string) (l : list string) : bool :=
  existsb (String.eqb x) l.

(** Values decoded from JSON, and their truth value in an [if]. *)
#[warnings="-register-all"] Inductive value :=
| None_
| Bool (b : bool)
| Int (n : Z)
| Float (q : Q)
| Str (s : string)
| List (items : list value)
| Dict (members : list (string * value)).

Definition truthy (v : value) : bool :=
  match v with
  | None_ => false
  | Bool b => b
  | Int n => negb (n =? 0)%Z
  | Float q => negb (Qeq_bool q 0)
  | Str s => negb (String.eqb s EmptyString)
  | List items => negb (length items =? 0)
  | Dict members => negb (length members =? 0)
  end.

End Py.

(** ** [src/lib/Source_gen.py] *)

Module Source_gen.

Import Py.

(** *** TextNormalizer: [clean_topic_title] *)

Definition prefixes : list string :=
  [ "Introduction to "; "The "; "An "; "A "; "Fundamentals of ";
    "Basics of "; "Advanced "; "Concepts of " ].

(** [re.sub(f"^{prefix}", "", cleaned, flags=re.IGNORECASE)]: the pattern is
    anchored at the start of the string, so at most one occurrence goes; the
    prefixes are letters and spaces, which match up to case. *)
Definition re_sub_prefix (prefix cleaned : string) : string :=
  if startswith (lower cleaned) (lower prefix)
  then drop (len prefix) cleaned
  else cleaned.

(** The [for prefix in prefixes] loop: every prefix is tried, in order, on
    what the earlier ones left. *)
Definition strip_prefixes (ps : list string) (title : string) : string :=
  fold_left (fun cleaned prefix => re_sub_prefix prefix cleaned) ps title.

(** Lines 35-43: [strip()] and the plural heuristic. *)
Definition singularize (cleaned : string) : string :=
  let cleaned := strip cleaned in
  if endswith (lower cleaned) "s" && (2 <? len cleaned)
     && negb (endswith (lower cleaned) "ss")
  then
    if negb (existsb (fun suffix => endswith (lower cleaned) suffix)
                     ["ics"; "esis"; "us"])
    then drop_last cleaned
    else cleaned
  else cleaned.

Definition clean_topic_title (title : string) : string :=
  singularize (strip_prefixes prefixes title).

(** *** KeywordExtractor: [extract_keywords_from_description] *)

Fixpoint span_len (P : ascii -> bool) (s : string) : nat :=
  match s with
  | String c s' => if P c then S (span_len P s') else 0
  | EmptyString => 0
  end.

(** Length of the match of [[;,]\s*|\s+and\s+] at the start of [s], [0] when
    there is none (the pattern matches no empty string).  Both branches are
    greedy; giving back white space never helps the second one, because the
    character after a shorter run is white space and not the [a] of [and]. *)
Definition delim_len (s : string) : nat :=
  match s with
  | EmptyString => 0
  | String c s' =>
      if Ascii.eqb c ";" || Ascii.eqb c "," then S (span_len isspace s')
      else
        let n := span_len isspace s in
        let r := drop n s in
        if (0 <? n) && startswith r "and" then
          let m := span_len isspace (drop 3 r) in
          if 0 <? m then n + 3 + m else 0
        else 0
  end.

(** [re.split(r'[;,]\s*|\s+and\s+', s)]: the head of the result is the
    fragment being read; [skip] counts the characters of a matched delimiter
    still to be passed over. *)
Fixpoint re_split_from (skip : nat) (s : string) : list string :=
  match s with
  | EmptyString => [EmptyString]
  | String c s' =>
      match skip with
      | S k => re_split_from k s'
      | O =>
          match delim_len s with
          | S n => EmptyString :: re_split_from n s'
          | O =>
              match re_split_from 0 s' with
              | f :: fs => String c f :: fs
              | [] => [String c EmptyString]
              end
          end
      end
  end.

Definition re_split (s : string) : list string := re_split_from 0 s.

(** [re.sub(r'[\).\s]+$', '', part)] *)
Definition re_sub_trailing (part : string) : string :=
  rstrip_with (fun c => Ascii.eqb c ")" || Ascii.eqb c "." || isspace c) part.

(** [re.sub(r'^\s*\(', '', part)] *)
Definition re_sub_leading (part : string) : string :=
  match lstrip_with isspace part with
  | String "(" rest => rest
  | _ => part
  end.

Definition nonempty (s : string) : bool := negb (String.eqb s "").

(** Lines 58-67. *)
Definition first_pass (parts : list string) : list string :=
  fold_left
    (fun keywords part =>
       let part := strip part in
       if nonempty part then
         let part := re_sub_trailing part in
         let part := re_sub_leading part in
         if nonempty part && (3 <? len part) then (keywords ++ [part])%list
         else keywords
       else keywords)
    parts [].

(** Lines 70-76. *)
Definition colon_pass (description : string) (keywords : list string)
    : list string :=
  match after_first ":" description with
  | None => keywords
  | Some rest =>
      let post_colon := strip rest in
      fold_left
        (fun keywords mp =>
           let mp := strip mp in
           if nonempty mp && (3 <? len mp) && negb (in_list mp keywords)
           then (keywords ++ [mp])%list
           else keywords)
        (re_split post_colon) keywords
  end.

Definition unwanted_keywords : list string :=
  [ "etc"; "and so on"; "such as"; "e.g."; "i.e."; "or"; "introduction";
    "basics"; "advanced" ].

(** Lines 50-80: the list [keywords] as it stands before [list(set(...))]. *)
Definition keyword_list (description : string) : list string :=
  let keywords := first_pass (re_split description) in
  let keywords := colon_pass description keywords in
  filter (fun kw => negb (in_list (lower kw) unwanted_keywords)
                    && (count_words kw <=? 5)) keywords.

(** *** SearchClient: [search_wikipedia_article] *)

(** Lines 92-103: the query variants, in the order they are tried. *)
Definition search_queries_to_try (query_term : string) : list string :=
  let queries := [query_term] in
  let cleaned_query_term := clean_topic_title query_term in
  let queries :=
    if nonempty cleaned_query_term
       && negb (String.eqb (lower cleaned_query_term) (lower query_term))
       && negb (in_list cleaned_query_term queries)
    then (queries ++ [cleaned_query_term])%list
    else queries in
  if endswith (lower query_term) " theory" then
    let core_concept :=
      replace (replace query_term " Theory" "" (Some 1)) " theory" "" (Some 1) in
    if nonempty core_concept
       && negb (String.eqb (lower core_concept) (lower query_term))
       && negb (in_list core_concept queries)
    then (queries ++ [core_concept])%list
    else queries
  else queries.

(** The request parameters of line 108. *)
Record params := {
  action : string;
  search : string;
  limit : string;
  namespace : string;
  format : string
}.

Definition mk_params (current_search_term : string) : params :=
  {| action := "opensearch"; search := current_search_term; limit := "10";
     namespace := "0"; format := "json" |}.

(** What lines 117-119 give back.  [RequestException] stands for every
    failure the [except] clause of line 145 catches; [Short] for a decoded
    body that is falsy or has at most three entries; [OpenSearch titles urls]
    for a body [[term, titles, descriptions, urls]], of which the code reads
    [data[1]] and [data[3]]. *)
Inductive response :=
| RequestException
| Short
| OpenSearch (titles urls : list string).

(** The dict [{"title": title, "url": url}] of lines 134, 139 and 143. *)
Record article := { found_title : string; found_url : string }.

(** Exceptions that leave the functions of this file. *)
Inductive exn :=
| KeyError (key : string)
| IndexError.

Inductive outcome (A : Type) :=
| Ok (a : A)
| Raise (e : exn).
Arguments Ok {A} a.
Arguments Raise {A} e.

(** Lines 123-143, the loop over the results of one variant: either a strong
    match is returned at once, or the loop ends with the (possibly extended)
    list of fallbacks. *)
Inductive scan :=
| Strong (a : article)
| Weak (found_articles : list article).

Definition strong_match (current_search_term title : string) : bool :=
  let lower_query_term := lower current_search_term in
  let lower_found_title := lower title in
  String.eqb lower_query_term lower_found_title
  || contains lower_found_title lower_query_term
  || contains lower_query_term lower_found_title.

(** [titles] is what is left of [data[1]] from index [i] on; [urls] is the
    whole of [data[3]], read at [i], which raises when out of range. *)
Fixpoint scan_results (current_search_term : string) (i : nat)
    (titles urls : list string) (found_articles : list article)
    : outcome scan :=
  match titles with
  | [] => Ok (Weak found_articles)
  | title :: rest =>
      match urls !! i with
      | None => Raise IndexError
      | Some url =>
          let a := {| found_title := title; found_url := url |} in
          if strong_match current_search_term title then Ok (Strong a)
          else
            scan_results current_search_term (S i) rest urls
              (if i =? 0 then (found_articles ++ [a])%list
               else found_articles)
      end
  end.

(** Effects the outside can see: a request to the search service, and the
    pause of line 149.  Console output is not modelled. *)
Inductive event :=
| Get (p : params)
| Sleep.

(** A SourceCandidate, the dict of lines 175-181 and 195-201.  The score is
    the decimal literal of the source as a fraction. *)
Record source := {
  url : string;
  type : string;
  title : string;
  relevance_score : Q;
  context_for_topic : string
}.

Section Effects.

(** The search service is any state machine answering requests; [W] is its
    state (and whatever else of the outside world decides an answer). *)
Context {W : Type}.
Variable requests_get : params -> W -> response * W.

(** [list(set(keywords))]: the order in which a set is listed is not fixed by
    the language. *)
Variable list_of_set : list string -> list string.

Record state := { world : W; log : list event }.

Definition M (A : Type) : Type := state -> outcome A * state.

Definition ret {A} (a : A) : M A := fun st => (Ok a, st).
Definition raise {A} (e : exn) : M A := fun st => (Raise e, st).
Definition bind {A B} (m : M A) (k : A -> M B) : M B :=
  fun st =>
    match m st with
    | (Ok a, st') => k a st'
    | (Raise e, st') => (Raise e, st')
    end.
Definition lift {A} (o : outcome A) : M A := fun st => (o, st).

#[local] Instance M_ret : MRet M := @ret.
#[local] Instance M_bind : MBind M := fun A B k m => bind m k.

Definition emit (e : event) : M unit :=
  fun st => (Ok tt, {| world := world st; log := (log st ++ [e])%list |}).

Definition get (p : params) : M response :=
  fun st =>
    let '(r, w) := requests_get p (world st) in
    (Ok r, {| world := w; log := (log st ++ [Get p])%list |}).

Definition sleep : M unit := emit Sleep.

(** Lines 107-149. *)
Fixpoint search_loop (queries : list string) (found_articles : list article)
    : M (option article) :=
  match queries with
  | [] => ret (head found_articles)
  | current_search_term :: rest =>
      r ← get (mk_params current_search_term);
      match r with
      | RequestException => search_loop rest found_articles
      | Short => sleep;; search_loop rest found_articles
      | OpenSearch titles urls =>
          if 0 <? length titles then
            s ← lift (scan_results current_search_term 0 titles urls
                        found_articles);
            match s with
            | Strong a => ret (Some a)
            | Weak found_articles => sleep;; search_loop rest found_articles
            end
          else sleep;; search_loop rest found_articles
      end
  end.

Definition search_wikipedia_article (query_term : string)
    : M (option article) :=
  search_loop (search_queries_to_try query_term) [].

(** *** KeywordExtractor, line 82 *)

Definition extract_keywords_from_description (description : string)
    : list string :=
  list_of_set (keyword_list description).

(** *** EvidenceLinker: [generate_sources_for_topic] *)

(** [topic_data[key]] *)
Definition getitem (topic_data : gmap string string) (key : string)
    : M string :=
  match topic_data !! key with
  | Some v => ret v
  | None => raise (KeyError key)
  end.

(** Lines 174-182 and 194-202: [acc] is the pair [(sources, seen_urls)]. *)
Definition add_source (info : option article) (score : Q) (context : string)
    (acc : list source * gset string) : list source * gset string :=
  let '(sources, seen_urls) := acc in
  match info with
  | Some a =>
      if decide (found_url a ∉ seen_urls) then
        ((sources ++ [ {| url := found_url a;
                          type := "Wikipedia Article";
                          title := found_title a;
                          relevance_score := score;
                          context_for_topic := context |} ])%list,
         {[ found_url a ]} ∪ seen_urls)
      else acc
  | None => acc
  end.

(** Lines 191-204. *)
Fixpoint sub_topic_loop (sub_topics : list string)
    (acc : list source * gset string) : M (list source * gset string) :=
  match sub_topics with
  | [] => ret acc
  | sub_topic :: rest =>
      sub_wiki_info ← search_wikipedia_article sub_topic;
      sub_topic_loop rest
        (add_source sub_wiki_info (8 # 10)%Q sub_topic acc)
  end.

Definition generate_sources_for_topic (topic_data : gmap string string)
    : M (list source) :=
  topic_title ← getitem topic_data "title";
  topic_description ← getitem topic_data "description";
  wiki_info ← search_wikipedia_article topic_title;
  let acc := add_source wiki_info (9 # 10)%Q topic_title ([], ∅) in
  if nonempty topic_description then
    acc ← sub_topic_loop
            (extract_keywords_from_description topic_description) acc;
    ret (fst acc)
  else ret (fst acc).

End Effects.

End Source_gen.

(** ** [backend/services/topicCreate.py] *)

Module topicCreate.

Import Py.

Definition nl : string := String (ascii_of_nat 10) EmptyString.
Definition dq : string := String (ascii_of_nat 34) EmptyString.
Definition fence : string := "```".

(** The f-string of lines 21-67. *)
Definition prompt (learning_goal : string) : string :=
  nl ++
  "    You are an expert educational curriculum designer. Your task is to break down a given learning goal into a structured, step-by-step roadmap of topics." ++ nl ++
  "    The topics should progress from easiest to hardest, clearly indicating prerequisites." ++ nl ++
  nl ++
  "    Provide the output as a JSON array of objects. The entire output MUST be a single, valid JSON array." ++ nl ++
  "    Do not include any introductory or concluding text, explanations, or markdown fences (```json) outside of the JSON array itself." ++ nl ++
  "    Start directly with `[` and end with `]`." ++ nl ++
  nl ++
  "    Each object in the JSON array MUST contain all specified keys and valid values:" ++ nl ++
  "    - " ++ dq ++ "id" ++ dq ++ ": A unique string identifier for the topic (e.g., " ++ dq ++ "intro_python" ++ dq ++ ", " ++ dq ++ "data_structures_1" ++ dq ++ ")." ++ nl ++
  "            Ensure that all generated `id`s are unique and that no topic is duplicated in the output array." ++ nl ++
  "            Consolidate conceptually similar topics under a single, well-defined topic." ++ nl ++
  "    - " ++ dq ++ "title" ++ dq ++ ": The name of the topic." ++ nl ++
  "    - " ++ dq ++ "description" ++ dq ++ ": A brief, concise description of what the topic covers." ++ nl ++
  "    - " ++ dq ++ "difficulty" ++ dq ++ ": A string indicating the estimated difficulty (e.g., " ++ dq ++ "beginner" ++ dq ++ ", " ++ dq ++ "intermediate" ++ dq ++ ", " ++ dq ++ "advanced" ++ dq ++ ")." ++ nl ++
  "    - " ++ dq ++ "prerequisites" ++ dq ++ ": An array of " ++ dq ++ "id" ++ dq ++ " strings of topics that must be learned before this topic. If no prerequisites, provide an empty array []." ++ nl ++
  "                      Ensure that any topic listed as a prerequisite appears earlier in the array than the topic that requires it." ++ nl ++
  nl ++
  "    Learning Goal: " ++ dq ++
  learning_goal ++
  dq ++ nl ++
  nl ++
  "    Example Output Structure (if the goal was " ++ dq ++ "Learn Web Development" ++ dq ++ "):" ++ nl ++
  "    [" ++ nl ++
  "      {" ++ nl ++
  "        " ++ dq ++ "id" ++ dq ++ ": " ++ dq ++ "html_basics" ++ dq ++ "," ++ nl ++
  "        " ++ dq ++ "title" ++ dq ++ ": " ++ dq ++ "HTML Basics" ++ dq ++ "," ++ nl ++
  "        " ++ dq ++ "description" ++ dq ++ ": " ++ dq ++ "Understanding the fundamental structure of web pages with HTML5." ++ dq ++ "," ++ nl ++
  "        " ++ dq ++ "difficulty" ++ dq ++ ": " ++ dq ++ "beginner" ++ dq ++ "," ++ nl ++
  "        " ++ dq ++ "prerequisites" ++ dq ++ ": []" ++ nl ++
  "      }," ++ nl ++
  "      {" ++ nl ++
  "        " ++ dq ++ "id" ++ dq ++ ": " ++ dq ++ "css_fundamentals" ++ dq ++ "," ++ nl ++
  "        " ++ dq ++ "title" ++ dq ++ ": " ++ dq ++ "CSS Fundamentals" ++ dq ++ "," ++ nl ++
  "        " ++ dq ++ "description" ++ dq ++ ": " ++ dq ++ "Styling web pages with CSS, including selectors, properties, and layout." ++ dq ++ "," ++ nl ++
  "        " ++ dq ++ "difficulty" ++ dq ++ ": " ++ dq ++ "beginner" ++ dq ++ "," ++ nl ++
  "        " ++ dq ++ "prerequisites" ++ dq ++ ": [" ++ dq ++ "html_basics" ++ dq ++ "]" ++ nl ++
  "      }," ++ nl ++
  "      {" ++ nl ++
  "        " ++ dq ++ "id" ++ dq ++ ": " ++ dq ++ "js_intro" ++ dq ++ "," ++ nl ++
  "        " ++ dq ++ "title" ++ dq ++ ": " ++ dq ++ "Introduction to JavaScript" ++ dq ++ "," ++ nl ++
  "        " ++ dq ++ "description" ++ dq ++ ": " ++ dq ++ "Basic programming concepts and DOM manipulation using JavaScript." ++ dq ++ "," ++ nl ++
  "        " ++ dq ++ "difficulty" ++ dq ++ ": " ++ dq ++ "intermediate" ++ dq ++ "," ++ nl ++
  "        " ++ dq ++ "prerequisites" ++ dq ++ ": [" ++ dq ++ "html_basics" ++ dq ++ ", " ++ dq ++ "css_fundamentals" ++ dq ++ "]" ++ nl ++
  "      }" ++ nl ++
  "    ]" ++ nl ++
  nl ++
  "    Now, generate the roadmap for the learning goal: " ++ dq ++
  learning_goal ++
  dq ++ nl ++
  "    ".

(** What can be raised inside the [try] of line 69.  The first three are
    subclasses of [Exception]; [KeyboardInterrupt] is not. *)
Inductive exn :=
| JSONDecodeError
| APIError (message : string)
| ConnectionError (message : string)
| KeyboardInterrupt.

Definition is_Exception (e : exn) : bool :=
  match e with
  | KeyboardInterrupt => false
  | _ => true
  end.

Inductive outcome (A : Type) :=
| Ok (a : A)
| Raise (e : exn).
Arguments Ok {A} a.
Arguments Raise {A} e.

(** Lines 75-79: a leading fence, tagged or not, and the closing one. *)
Definition strip_fences (raw_json_string : string) : string :=
  if startswith raw_json_string (fence ++ "json") then
    replace (replace raw_json_string (fence ++ "json" ++ nl) EmptyString None)
            (nl ++ fence) EmptyString None
  else if startswith raw_json_string fence then
    replace (replace raw_json_string (fence ++ nl) EmptyString None)
            (nl ++ fence) EmptyString None
  else raw_json_string.

Section Collaborator.

(** The generative service: [model.generate_content(prompt)] followed by
    [response.text] either raises or yields the text of the answer.  [W] is
    the state of the outside world. *)
Context {W : Type}.
Variable generate_content : string -> W -> (exn + string) * W.

(** [json.loads]: [None] when the text is not JSON ([JSONDecodeError]). *)
Variable json_loads : string -> option value.

Definition M (A : Type) : Type := W -> outcome A * W.

Definition ret {A} (a : A) : M A := fun w => (Ok a, w).
Definition raise {A} (e : exn) : M A := fun w => (Raise e, w).
Definition bind {A B} (m : M A) (k : A -> M B) : M B :=
  fun w =>
    match m w with
    | (Ok a, w') => k a w'
    | (Raise e, w') => (Raise e, w')
    end.

#[local] Instance M_ret : MRet M := @ret.
#[local] Instance M_bind : MBind M := fun A B k m => bind m k.

(** [try: body except Exception: handler] *)
Definition try_except {A} (body : M A) (handler : exn -> M A) : M A :=
  fun w =>
    match body w with
    | (Ok a, w') => (Ok a, w')
    | (Raise e, w') =>
        if is_Exception e then handler e w' else (Raise e, w')
    end.

Definition ask (prompt : string) : M string :=
  fun w =>
    match generate_content prompt w with
    | (inl e, w') => (Raise e, w')
    | (inr text, w') => (Ok text, w')
    end.

Definition loads (s : string) : M value :=
  match json_loads s with
  | Some v => ret v
  | None => raise JSONDecodeError
  end.

(** Lines 69-89.  The message printed by the handler is not modelled. *)
Definition generate_learning_roadmap (learning_goal : string) : M value :=
  try_except
    (text ← ask (prompt learning_goal);
     let raw_json_string := strip text in
     let raw_json_string := strip_fences raw_json_string in
     topics ← loads raw_json_string;
     mret topics)
    (fun e => mret (List [])).

End Collaborator.

End topicCreate.

(** ** [backend/routes/roadmap.py] *)

Module roadmap.

Import Py.

(** [HTTPException] is what line 12 raises; [ServiceError] is whatever escapes
    the ingestion service, kept apart from it. *)
Inductive exn (E : Type) :=
| HTTPException (status_code : Z) (detail : string)
| ServiceError (e : E).
Arguments HTTPException {E} status_code detail.
Arguments ServiceError {E} e.

Inductive outcome (E A : Type) :=
| Ok (a : A)
| Raise (e : exn E).
Arguments Ok {E A} a.
Arguments Raise {E A} e.

(** A call of the decomposition/ingestion pipeline. *)
Inductive event :=
| Ingest (learning_goal user_id : value).

Section Endpoint.

(** [services.neo4j_ingest.ingest_roadmap_into_neo4j] is imported, not
    defined, by this file: it is any function of the goal and the user id that
    acts on the outside world [W] and either returns a result [R] or lets an
    exception [E] escape. *)
Context {W R E : Type}.
Variable ingest_roadmap_into_neo4j : value -> value -> W -> (E + R) * W.

Record state := { world : W; calls : list event }.

Definition M (A : Type) : Type := state -> outcome E A * state.

Definition ret {A} (a : A) : M A := fun st => (Ok a, st).
Definition raise {A} (e : exn E) : M A := fun st => (Raise e, st).
Definition bind {A B} (m : M A) (k : A -> M B) : M B :=
  fun st =>
    match m st with
    | (Ok a, st') => k a st'
    | (Raise e, st') => (Raise e, st')
    end.

#[local] Instance M_ret : MRet M := @ret.
#[local] Instance M_bind : MBind M := fun A B k m => bind m k.

Definition ingest (learning_goal user_id : value) : M R :=
  fun st =>
    let '(r, w) := ingest_roadmap_into_neo4j learning_goal user_id (world st) in
    let st' := {| world := w;
                  calls := (calls st ++ [Ingest learning_goal user_id])%list |} in
    match r with
    | inl e => (Raise (ServiceError e), st')
    | inr result => (Ok result, st')
    end.

(** [data.get(key, default)] *)
Definition dict_get (data : gmap string value) (key : string) (d : value)
    : value :=
  default d (data !! key).

Definition generate_roadmap_endpoint (data : gmap string value) : M R :=
  let learning_goal := dict_get data "goal" None_ in
  let user_id := dict_get data "user_id" (Str "user123") in
  if negb (truthy learning_goal) then
    raise (HTTPException 400 "Missing learning goal.")
  else
    result ← ingest learning_goal user_id;
    mret result.

End Endpoint.

End roadmap.

(** ** GraphValidator *)

Module GraphValidator.

(** Modelled from the spec: the difficulty levels of a Topic (section 3); the
    source files declare no such type. *)
Inductive Difficulty := beginner | intermediate | advanced.

(** Modelled from the spec: the Topic of the data model (section 3), which
    the source files handle as an untyped decoded JSON object. *)
Record Topic := {
  id : string;
  title : string;
  description : string;
  difficulty : Difficulty;
  prerequisites : list string
}.

(** Modelled from the spec: a reported defect of the validation missing from
    the source files (section 4.2, section 7 item 3), with the position of
    the topic it was found at and the id concerned. *)
Inductive violation :=
| DuplicateId (position : nat) (topic_id : string)
| UnresolvedPrerequisite (position : nat) (prerequisite : string).

(** Modelled from the spec: the GraphValidator operation is in none of the
    source files (the pipeline that would call it, [services/neo4j_ingest], is
    only imported by [routes/roadmap.py]).  One pass over the raw topic
    sequence with the set of ids met so far: a topic whose id was met is a
    duplicate, a prerequisite that was not met does not resolve to an earlier
    topic.  The validator reports; it neither reorders nor prunes. *)
Fixpoint validate_from (position : nat) (seen : gset string)
    (topics : list Topic) : list violation :=
  match topics with
  | [] => []
  | t :: rest =>
      ((if decide (id t ∈ seen) then [DuplicateId position (id t)] else [])
       ++ map (UnresolvedPrerequisite position)
              (filter (fun p => p ∉ seen) (prerequisites t))
       ++ validate_from (S position) ({[ id t ]} ∪ seen) rest)%list
  end.

(** Modelled from the spec: the GraphValidator operation on a raw topic
    sequence, missing from the source files. *)
Definition validate (topics : list Topic) : list violation :=
  validate_from 0 ∅ topics.

End GraphValidator.

(** * Vocabulary of the statements, and concrete scenarios *)

Module Source_gen_spec.

Import Py Source_gen.

(** [prefix] matches at the start of [title], up to case: the test of
    [re_sub_prefix]. *)
Definition matches (title prefix : string) : bool :=
  startswith (lower title) (lower prefix).

(** The reading of the specification, to compare [clean_topic_title] with:
    only the first prefix that matches, in the fixed order, is removed. *)
Definition spec_first_prefix (title : string) : option string :=
  find (matches title) prefixes.

Definition spec_clean_topic_title (title : string) : string :=
  singularize
    match spec_first_prefix title with
    | Some p => drop (len p) title
    | None => title
    end.

Definition example_description : string :=
  "Covers vector spaces, matrices, and inner products.".

(** The invariant of the loops of [generate_sources_for_topic]: the urls
    emitted so far are pairwise distinct, and each of them is in
    [seen_urls]. *)
Definition linked (acc : list source * gset string) : Prop :=
  NoDup (url <$> acc.1) /\ forall u, u ∈ url <$> acc.1 -> u ∈ acc.2.

(** An answer that follows the interface: a url for every title. *)
Definition aligned (r : response) : Prop :=
  match r with
  | OpenSearch titles urls => length titles <= length urls
  | _ => True
  end.

(** An answer to the variant [qr.1] that follows the interface and holds no
    strong match for it. *)
Definition weak_only (qr : string * response) : Prop :=
  aligned qr.2
  /\ match qr.2 with
     | OpenSearch titles urls =>
         Forall (fun title => strong_match qr.1 title = false) titles
     | _ => True
     end.

(** The top-ranked result of an answer that has results. *)
Definition top_result (r : response) : option article :=
  match r with
  | OpenSearch (title :: _) (url :: _) =>
      Some {| found_title := title; found_url := url |}
  | _ => None
  end.

Definition top_results (rs : list (string * response)) : list article :=
  omap (fun qr => top_result qr.2) rs.

Section Service.

Context {W : Type}.
Variable requests_get : params -> W -> response * W.

(** What the service answers when asked [queries] in turn from [w]. *)
Fixpoint replies (queries : list string) (w : W) : list (string * response) :=
  match queries with
  | [] => []
  | q :: rest =>
      let '(r, w') := requests_get (mk_params q) w in
      (q, r) :: replies rest w'
  end.

End Service.

(** A concrete service.  Its state counts the requests served.  Any term that
    mentions linear algebra gets the article of that name first; "matrices"
    gets an article whose title shares nothing with the term; "matrice" makes
    the request fail; the rest gets a short body. *)
Definition wiki_base : string := "https://en.wikipedia.org/wiki/".

Definition service (p : params) (served : nat) : response * nat :=
  let term := lower (search p) in
  (if contains term "linear algebra" then
     OpenSearch ["Linear algebra"; "Linear algebraic group"]
                [wiki_base ++ "Linear_algebra";
                 wiki_base ++ "Linear_algebraic_group"]
   else if String.eqb term "matrices" then
     OpenSearch ["Matrix (mathematics)"] [wiki_base ++ "Matrix_(mathematics)"]
   else if String.eqb term "matrice" then RequestException
   else Short,
   S served).

Definition start : state := {| world := 0; log := [] |}.

Definition linear_algebra : gmap string string :=
  {[ "title" := "Linear Algebra";
     "description" := "Linear algebra, matrices, and Linear Algebra" ]}.

Definition untitled : gmap string string :=
  {[ "description" := example_description ]}.

End Source_gen_spec.

Module topicCreate_spec.

Import Py topicCreate.

(** A collaborator that cannot be reached, one that answers prose, and one
    that answers a fenced empty array; a parser that knows the empty array
    only. *)
Definition offline (prompt : string) (w : nat) : (exn + string) * nat :=
  (inl (ConnectionError "unreachable"), S w).

Definition chatty (prompt : string) (w : nat) : (exn + string) * nat :=
  (inr "Sure! Here is your roadmap.", S w).

Definition fenced (prompt : string) (w : nat) : (exn + string) * nat :=
  (inr (fence ++ "json" ++ nl ++ "[]" ++ nl ++ fence ++ nl), S w).

Definition interrupted (prompt : string) (w : nat) : (exn + string) * nat :=
  (inl KeyboardInterrupt, S w).

Definition loads_empty_array (s : string) : option value :=
  if String.eqb s "[]" then Some (List []) else None.

End topicCreate_spec.

Module roadmap_spec.

Import Py roadmap.

(** A pipeline that answers with the goal it was given. *)
Definition echo (learning_goal user_id : value) (w : nat)
    : (Empty_set + value) * nat :=
  (inr learning_goal, S w).

Definition fresh : state := {| world := 0; calls := [] |}.

End roadmap_spec.

Module GraphValidator_spec.

Import GraphValidator.

(** Some topic at a position before [i] has the id [x]. *)
Definition earlier (topics : list Topic) (i : nat) (x : string) : Prop :=
  exists j t', j < i /\ topics !! j = Some t' /\ id t' = x.

Definition topic (x : string) (ps : list string) : Topic :=
  {| id := x; title := x; description := x; difficulty := beginner;
     prerequisites := ps |}.

(** The end-to-end scenario of the specification. *)
Definition web_development : list Topic :=
  [ topic "html_basics" [];
    topic "css_fundamentals" ["html_basics"];
    topic "js_intro" ["html_basics"; "css_fundamentals"] ].

(** A forward reference at position 1 and a repeated id at position 2. *)
Definition flawed : list Topic :=
  [ topic "html_basics" [];
    topic "css_fundamentals" ["js_intro"];
    topic "html_basics" [] ].

End GraphValidator_spec.

(** Further vocabulary: pieces of a text, the requests on a log, answers
    without results, and services for the scenarios. *)

Module Coverage_spec.

Import Py Source_gen.

(** [k] occurs in [s] as a contiguous piece. *)
Definition piece_of (k s : string) : Prop :=
  exists pre post, s = pre ++ k ++ post.

(** [c] occurs in [s]. *)
Fixpoint has_char (c : ascii) (s : string) : bool :=
  match s with
  | EmptyString => false
  | String x s' => Ascii.eqb x c || has_char c s'
  end.

(** [s] is made of white space only. *)
Fixpoint blank (s : string) : bool :=
  match s with
  | EmptyString => true
  | String x s' => isspace x && blank s'
  end.

(** The requests among the events of a log, in order. *)
Definition requests (evs : list event) : list params :=
  omap (fun e => match e with Get p => Some p | Sleep => None end) evs.

(** An answer that brings no result: a failure, a short body, or an empty
    list of titles. *)
Definition no_results (r : response) : Prop :=
  match r with
  | OpenSearch (_ :: _) _ => False
  | _ => True
  end.

(** [a] stands at one index of the titles and urls of an answer in [rs]. *)
Definition answered (a : article) (rs : list (string * response)) : Prop :=
  exists v titles urls i,
    (v, OpenSearch titles urls) ∈ rs
    /\ titles !! i = Some (found_title a)
    /\ urls !! i = Some (found_url a).

(** [title] is no strong match for the variant [q]. *)
Definition weak (q title : string) : Prop := strong_match q title = false.

(** The pause of line 149 is skipped by the [continue] of line 147. *)
Definition pause_after (r : response) : list event :=
  match r with
  | RequestException => []
  | _ => [Sleep]
  end.

(** The number of pauses among the events of a log. *)
Definition pauses (evs : list event) : nat :=
  length (omap (fun e => match e with Sleep => Some tt | Get _ => None end)
               evs).

(** What the two passes put on the list. *)
Definition kept (description k : string) : Prop :=
  piece_of k description
  /\ has_char "," k = false /\ has_char ";" k = false
  /\ 3 < len k.

(** The kinds of source [generate_sources_for_topic] emits. *)
Definition wikipedia (s : source) : Prop := type s = "Wikipedia Article".

Definition primary (topic_title : string) (s : source) : Prop :=
  relevance_score s = (9 # 10)%Q /\ context_for_topic s = topic_title.

Definition secondary (s : source) : Prop := relevance_score s = (8 # 10)%Q.

(** A service that is down, one that has nothing, and one whose answer has
    two titles and a single url. *)
Definition down (p : params) (served : nat) : response * nat :=
  (RequestException, S served).

Definition barren (p : params) (served : nat) : response * nat :=
  (Short, S served).

Definition misaligned (p : params) (served : nat) : response * nat :=
  (OpenSearch ["Matrix (mathematics)"; "Matrix decomposition"]
              ["https://en.wikipedia.org/wiki/Matrix_(mathematics)"],
   S served).

(** A service that puts the exact article second. *)
Definition ranked_second (p : params) (served : nat) : response * nat :=
  (OpenSearch ["Group (mathematics)"; "Ring theory"]
              ["https://en.wikipedia.org/wiki/Group_(mathematics)";
               "https://en.wikipedia.org/wiki/Ring_theory"],
   S served).

End Coverage_spec.

(** * Properties *)

(** ** Python string methods *)

Module Py_facts.

Import Py.

Example lower_example : lower "The Hydrogen ATOM" = "the hydrogen atom".
Proof. reflexivity. Qed.

Example strip_example : strip "  a b . " = "a b .".
Proof. reflexivity. Qed.

Example replace_example :
  replace "x Theory Theory" " Theory" EmptyString (Some 1) = "x Theory"
  /\ replace "aXbXc" "X" "--" None = "a--b--c".
Proof. split; reflexivity. Qed.

Example endswith_example :
  endswith "physics" "ics" = true /\ endswith "cs" "ics" = false.
Proof. split; reflexivity. Qed.

Example contains_example :
  contains "linear algebra" "algebra" = true
  /\ contains "algebra" "linear algebra" = false
  /\ contains "algebra" EmptyString = true.
Proof. repeat split; reflexivity. Qed.

End Py_facts.

(** ** TextNormalizer *)

Module TextNormalizer_facts.

Import Py Source_gen Source_gen_spec.

Example clean_introduction : clean_topic_title "Introduction to HTML" = "HTML".
Proof. reflexivity. Qed.

Example clean_article :
  clean_topic_title "The Hydrogen Atom" = "Hydrogen Atom".
Proof. reflexivity. Qed.

Example clean_plural : clean_topic_title "Matrices" = "Matrice".
Proof. reflexivity. Qed.

Lemma re_sub_prefix_matches prefix cleaned :
  re_sub_prefix prefix cleaned
  = if matches cleaned prefix then drop (len prefix) cleaned else cleaned.
Proof. reflexivity. Qed.

Lemma strip_prefixes_app ps qs title :
  strip_prefixes (ps ++ qs) title = strip_prefixes qs (strip_prefixes ps title).
Proof. unfold strip_prefixes. apply fold_left_app. Qed.

Lemma strip_prefixes_no_match ps title :
  Forall (fun q => matches title q = false) ps ->
  strip_prefixes ps title = title.
Proof.
  induction 1 as [|q ps Hq _ IH]; [reflexivity|].
  cbn. rewrite re_sub_prefix_matches, Hq. exact IH.
Qed.

Lemma strip_prefixes_first before p after title :
  Forall (fun q => matches title q = false) before ->
  matches title p = true ->
  strip_prefixes (before ++ p :: after) title
  = strip_prefixes after (drop (len p) title).
Proof.
  intros Hb Hp. rewrite strip_prefixes_app, (strip_prefixes_no_match _ _ Hb).
  cbn. now rewrite re_sub_prefix_matches, Hp.
Qed.

(** C2 (as stated, refuted): at "The Advanced Topics" the first prefix that
    matches is "The ", what is left begins with "Advanced ", and that second
    prefix is removed too: the result is "Topics", where removing one prefix
    gives "Advanced Topics". *)
Lemma clean_topic_title_strips_two :
  spec_first_prefix "The Advanced Topics" = Some "The "
  /\ matches (drop (len "The ") "The Advanced Topics") "Advanced " = true
  /\ spec_clean_topic_title "The Advanced Topics" = "Advanced Topics"
  /\ clean_topic_title "The Advanced Topics" = "Topics"
  /\ clean_topic_title "The Advanced Topics"
     <> spec_clean_topic_title "The Advanced Topics".
Proof. repeat split; vm_compute; congruence. Qed.

(** C2 (amended): every prefix is tried once, in the fixed order, on what the
    earlier ones left.  So once the first matching prefix [p] is removed, only
    the prefixes listed after [p] are tried on the remainder; if the remainder
    begins with none of those, [p] is the only prefix stripped, even when the
    remainder begins with [p] again or with a prefix listed before [p]. *)
Theorem clean_topic_title_first_prefix (title p : string)
    (before after : list string) :
  prefixes = (before ++ p :: after)%list ->
  Forall (fun q => matches title q = false) before ->
  matches title p = true ->
  clean_topic_title title
  = singularize (strip_prefixes after (drop (len p) title))
  /\ (Forall (fun q => matches (drop (len p) title) q = false) after ->
      clean_topic_title title = singularize (drop (len p) title)).
Proof.
  intros Hsplit Hb Hp. unfold clean_topic_title.
  rewrite Hsplit, (strip_prefixes_first _ _ _ _ Hb Hp).
  split; [reflexivity|].
  intros Ha. now rewrite (strip_prefixes_no_match _ _ Ha).
Qed.

(** At "Advanced The Topics" only "Advanced " goes: "The " is listed before
    it and is not tried again. *)
Lemma clean_topic_title_first_prefix_witness :
  clean_topic_title "Advanced The Topics" = "The Topics".
Proof.
  refine (proj2 (clean_topic_title_first_prefix "Advanced The Topics"
                   "Advanced "
                   [ "Introduction to "; "The "; "An "; "A ";
                     "Fundamentals of "; "Basics of " ]
                   ["Concepts of "] _ _ _) _).
  - reflexivity.
  - repeat (constructor; [reflexivity|]). constructor.
  - reflexivity.
  - constructor; [reflexivity|constructor].
Defined.

End TextNormalizer_facts.

(** ** KeywordExtractor *)

Module KeywordExtractor_facts.

Import Py Source_gen Source_gen_spec.

Lemma keyword_list_example :
  keyword_list example_description
  = ["Covers vector spaces"; "matrices"; "and inner products"].
Proof. reflexivity. Qed.

Example keyword_list_colon :
  keyword_list "Linear algebra: vector spaces; (matrices) and  so on, etc, a and b."
  = ["Linear algebra: vector spaces"; "matrices"; "so on"; "vector spaces";
     "(matrices)"].
Proof. reflexivity. Qed.

(** C3 (as stated, refuted): the text is split at the two commas only, and
    nothing removes the leading word of the first fragment, so
    "vector spaces" is not among the keywords of the example. *)
Lemma extract_keywords_example_misses :
  re_split example_description
  = ["Covers vector spaces"; "matrices"; "and inner products."]
  /\ "vector spaces" ∉ extract_keywords_from_description remove_dups
                         example_description.
Proof.
  split; [reflexivity|].
  unfold extract_keywords_from_description.
  rewrite elem_of_remove_dups, keyword_list_example.
  intros H. repeat (apply elem_of_cons in H as [H|H]; [discriminate H|]).
  inversion H.
Qed.

(** C3 (amended): whatever order the set is listed in, the keywords of the
    example contain "Covers vector spaces" (the first fragment, whole) and
    "matrices", and none of them is stoplisted or has 3 characters or fewer. *)
Theorem extract_keywords_example (list_of_set : list string -> list string) :
  (forall l x, x ∈ list_of_set l <-> x ∈ l) ->
  let r := extract_keywords_from_description list_of_set example_description in
  "Covers vector spaces" ∈ r
  /\ "matrices" ∈ r
  /\ forall k, k ∈ r ->
       in_list (lower k) unwanted_keywords = false /\ 3 < len k.
Proof.
  intros Hset r. subst r. unfold extract_keywords_from_description.
  rewrite !Hset, keyword_list_example.
  split; [apply list_elem_of_here|].
  split; [apply list_elem_of_further, list_elem_of_here|].
  intros k Hk. rewrite Hset in Hk.
  repeat (apply elem_of_cons in Hk as [->|Hk]; [split; [reflexivity|cbn; lia]|]).
  inversion Hk.
Qed.

Lemma extract_keywords_example_witness :
  let r := extract_keywords_from_description remove_dups example_description in
  "Covers vector spaces" ∈ r
  /\ "matrices" ∈ r
  /\ forall k, k ∈ r ->
       in_list (lower k) unwanted_keywords = false /\ 3 < len k.
Proof.
  apply (extract_keywords_example remove_dups).
  intros l x. apply elem_of_remove_dups.
Defined.

End KeywordExtractor_facts.

(** ** SearchClient *)

Module SearchClient_facts.

Import Py Source_gen Source_gen_spec.

Lemma search_queries_head query_term :
  exists rest, search_queries_to_try query_term = query_term :: rest.
Proof.
  unfold search_queries_to_try.
  repeat match goal with
         | |- context [if ?b then _ else _] => destruct b
         end; cbn; eauto.
Qed.

Example search_queries_theory :
  search_queries_to_try "String Theory" = ["String Theory"; "String"]
  /\ search_queries_to_try "Game theory" = ["Game theory"; "Game"]
  /\ search_queries_to_try "Introduction to Graphs"
     = ["Introduction to Graphs"; "Graph"].
Proof. repeat split; reflexivity. Qed.

(** C8 (the code at the failing input): "String THEORY" ends in " theory" up
    to case, so the guard of line 100 is passed, but neither [replace] of line
    101 finds its spelling: the core concept is the term itself and no variant
    is added. *)
Lemma search_queries_upper_case_theory :
  endswith (lower "String THEORY") " theory" = true
  /\ replace (replace "String THEORY" " Theory" EmptyString (Some 1))
             " theory" EmptyString (Some 1) = "String THEORY"
  /\ search_queries_to_try "String THEORY" = ["String THEORY"].
Proof. repeat split; reflexivity. Qed.

Section Service.

Context {W : Type}.
Variable requests_get : params -> W -> response * W.

Lemma scan_results_returns q titles : forall urls i found_articles,
  i + length titles <= length urls ->
  exists s, scan_results q i titles urls found_articles = Ok s.
Proof.
  induction titles as [|title titles IH]; intros urls i found Hlen.
  - cbn. eauto.
  - cbn [scan_results]. cbn [length] in Hlen.
    destruct (lookup_lt_is_Some_2 urls i ltac:(lia)) as [url ->].
    destruct (strong_match q title); [eauto|].
    apply IH. lia.
Qed.

Lemma scan_results_weak_tail q titles : forall urls i found_articles,
  0 < i ->
  i + length titles <= length urls ->
  Forall (fun title => strong_match q title = false) titles ->
  scan_results q i titles urls found_articles = Ok (Weak found_articles).
Proof.
  induction titles as [|title titles IH]; intros urls i found Hi Hlen Hweak.
  - reflexivity.
  - cbn [scan_results]. cbn [length] in Hlen.
    destruct (lookup_lt_is_Some_2 urls i ltac:(lia)) as [url ->].
    inversion Hweak as [|? ? Ht Hrest]; subst. rewrite Ht.
    destruct i as [|i]; [lia|]. cbn [Nat.eqb].
    apply IH; [lia|lia|assumption].
Qed.

Lemma scan_results_weak q title titles url urls found_articles :
  length titles <= length urls ->
  Forall (fun t => strong_match q t = false) (title :: titles) ->
  scan_results q 0 (title :: titles) (url :: urls) found_articles
  = Ok (Weak (found_articles
              ++ [ {| found_title := title; found_url := url |} ])).
Proof.
  intros Hlen Hweak. inversion Hweak as [|? ? Ht Hrest]; subst.
  cbn [scan_results lookup list_lookup]. rewrite Ht. cbn [Nat.eqb].
  apply scan_results_weak_tail; [lia|cbn; lia|assumption].
Qed.

Lemma search_loop_weak queries : forall found_articles (st : state),
  Forall weak_only (replies requests_get queries (world st)) ->
  exists st',
    search_loop requests_get queries found_articles st
    = (Ok (head (found_articles
                 ++ top_results (replies requests_get queries (world st)))),
       st').
Proof.
  induction queries as [|q rest IH]; intros found st Hweak.
  - cbn. rewrite app_nil_r. eauto.
  - cbn [replies] in *. cbn [search_loop].
    unfold mbind, M_bind, bind, get.
    destruct (requests_get (mk_params q) (world st)) as [r w'] eqn:Hr.
    inversion Hweak as [|? ? Hq Hrest]; subst.
    unfold top_results; cbn [omap]; fold top_results.
    destruct r as [| |titles urls]; cbn [top_result snd].
    + edestruct IH as [st' ->]; [exact Hrest|]. eauto.
    + unfold sleep, emit; cbn.
      edestruct (IH found) as [st' ->]; [exact Hrest|]. eauto.
    + destruct Hq as [Hlen Htitles]; cbn in Hlen, Htitles.
      destruct titles as [|title titles].
      * cbn. edestruct (IH found) as [st' ->]; [exact Hrest|]. eauto.
      * destruct urls as [|url urls]; [cbn in Hlen; lia|].
        cbn [length Nat.ltb Nat.leb]. unfold lift.
        rewrite scan_results_weak; [|cbn in Hlen; lia|assumption].
        unfold sleep, emit; cbn.
        edestruct (IH (found ++ [{| found_title := title; found_url := url |}])%list)
          as [st' ->]; [exact Hrest|].
        rewrite <- app_assoc. eauto.
Qed.

(** With a service that follows the interface the search always returns. *)
Lemma search_loop_returns queries :
  (forall p w, aligned (requests_get p w).1) ->
  forall found_articles (st : state),
  exists r st',
    search_loop requests_get queries found_articles st = (Ok r, st').
Proof.
  intros Haligned.
  induction queries as [|q rest IH]; intros found st; [cbn; eauto|].
  cbn [search_loop]. unfold mbind, M_bind, bind, get.
  pose proof (Haligned (mk_params q) (world st)) as Ha.
  destruct (requests_get (mk_params q) (world st)) as [[| |titles urls] w'];
    cbn in Ha.
  - apply IH.
  - unfold sleep, emit; cbn. apply IH.
  - destruct (0 <? length titles); [|unfold sleep, emit; cbn; apply IH].
    unfold lift.
    destruct (scan_results_returns q titles urls 0 found Ha) as [[a|found'] ->].
    + cbn. eauto.
    + unfold sleep, emit; cbn. apply IH.
Qed.

End Service.

(** C4: when every answer to the variants of [query_term] follows the
    interface and holds no strong match (no title equal to the variant up to
    case, no containment either way), the search returns the top-ranked result
    of the earliest variant that got results, and [None] when none got any. *)
Theorem search_returns_first_fallback {W : Type}
    (requests_get : params -> W -> response * W)
    (query_term : string) (st : state) :
  Forall weak_only
    (replies requests_get (search_queries_to_try query_term) (world st)) ->
  exists st',
    search_wikipedia_article requests_get query_term st
    = (Ok (head (top_results
                   (replies requests_get (search_queries_to_try query_term)
                            (world st)))), st').
Proof.
  intros Hweak. unfold search_wikipedia_article.
  destruct (search_loop_weak requests_get _ [] st Hweak) as [st' Hrun].
  exists st'. exact Hrun.
Qed.

Lemma matrices_replies :
  replies service (search_queries_to_try "matrices") (world start)
  = [ ("matrices",
       OpenSearch ["Matrix (mathematics)"]
                  ["https://en.wikipedia.org/wiki/Matrix_(mathematics)"]);
      ("matrice", RequestException) ].
Proof. vm_compute. reflexivity. Qed.

(** The term "matrices" gets one result that is no strong match, its variant
    "matrice" a failure: the one result is the fallback. *)
Lemma search_returns_first_fallback_witness :
  exists st',
    search_wikipedia_article service "matrices" start
    = (Ok (Some {| found_title := "Matrix (mathematics)";
                   found_url := "https://en.wikipedia.org/wiki/Matrix_(mathematics)" |}),
       st').
Proof.
  apply (search_returns_first_fallback service "matrices" start).
  rewrite matrices_replies.
  constructor.
  - unfold weak_only, aligned; cbn. split; [lia|].
    constructor; [vm_compute; reflexivity|constructor].
  - constructor; [split; exact I|constructor].
Defined.

(** C5: when the top-ranked result of the first variant (the term itself) has
    a title equal to it up to case, that result is returned at once: one
    request is on record and nothing else, and the outcome is the same
    whatever the rest of the titles and urls. *)
Theorem search_exact_match_short_circuits {W : Type}
    (requests_get : params -> W -> response * W)
    (query_term title url : string) (titles urls : list string)
    (st : state) (w' : W) :
  requests_get (mk_params query_term) (world st)
  = (OpenSearch (title :: titles) (url :: urls), w') ->
  lower title = lower query_term ->
  search_wikipedia_article requests_get query_term st
  = (Ok (Some {| found_title := title; found_url := url |}),
     {| world := w'; log := log st ++ [Get (mk_params query_term)] |}).
Proof.
  intros Hget Heq. unfold search_wikipedia_article.
  destruct (search_queries_head query_term) as [rest ->].
  cbn [search_loop]. unfold mbind, M_bind, bind, get. rewrite Hget.
  cbn [length Nat.ltb Nat.leb]. unfold lift.
  cbn [scan_results lookup list_lookup]. unfold strong_match.
  rewrite Heq, String.eqb_refl. reflexivity.
Qed.

Lemma search_exact_match_short_circuits_witness :
  search_wikipedia_article service "Linear Algebra" start
  = (Ok (Some {| found_title := "Linear algebra";
                 found_url := "https://en.wikipedia.org/wiki/Linear_algebra" |}),
     {| world := 1; log := [Get (mk_params "Linear Algebra")] |}).
Proof.
  apply (search_exact_match_short_circuits service "Linear Algebra"
           "Linear algebra" "https://en.wikipedia.org/wiki/Linear_algebra"
           ["Linear algebraic group"]
           ["https://en.wikipedia.org/wiki/Linear_algebraic_group"]
           start 1).
  - reflexivity.
  - reflexivity.
Defined.

End SearchClient_facts.

(** ** EvidenceLinker *)

Module EvidenceLinker_facts.

Import Py Source_gen Source_gen_spec.

Lemma linked_empty : linked ([], ∅).
Proof. split; [constructor|]. cbn. intros u Hu. inversion Hu. Qed.

Lemma add_source_linked info score context acc :
  linked acc -> linked (add_source info score context acc).
Proof.
  destruct acc as [sources seen_urls]. intros [Hnd Hseen].
  destruct info as [a|]; cbn; [|by split].
  case_decide as Hnew; [|by split].
  split; cbn in *.
  - rewrite fmap_app. apply NoDup_app. split; [assumption|]. split.
    + intros u Hu Hin. apply list_elem_of_singleton in Hin. subst u.
      apply Hnew, Hseen, Hu.
    + apply NoDup_singleton.
  - intros u. rewrite fmap_app, elem_of_app. cbn.
    rewrite list_elem_of_singleton. intros [Hu| ->]; [|set_solver].
    apply elem_of_union_r, Hseen, Hu.
Qed.

Section Service.

Context {W : Type}.
Variable requests_get : params -> W -> response * W.
Variable list_of_set : list string -> list string.

Lemma sub_topic_loop_linked sub_topics : forall acc (st : state) acc' st',
  linked acc ->
  sub_topic_loop requests_get sub_topics acc st = (Ok acc', st') ->
  linked acc'.
Proof.
  induction sub_topics as [|sub_topic rest IH]; intros acc st acc' st' Hacc.
  - cbn. intros [= <- _]. exact Hacc.
  - cbn [sub_topic_loop]. unfold mbind, M_bind, bind.
    destruct (search_wikipedia_article requests_get sub_topic st)
      as [[info|e] st1]; [|discriminate].
    apply IH, add_source_linked, Hacc.
Qed.

Lemma sub_topic_loop_returns sub_topics :
  (forall p w, aligned (requests_get p w).1) ->
  forall acc (st : state),
  exists acc' st',
    sub_topic_loop requests_get sub_topics acc st = (Ok acc', st').
Proof.
  intros Haligned.
  induction sub_topics as [|sub_topic rest IH]; intros acc st; [cbn; eauto|].
  cbn [sub_topic_loop]. unfold mbind, M_bind, bind, search_wikipedia_article.
  destruct (SearchClient_facts.search_loop_returns requests_get
              (search_queries_to_try sub_topic) Haligned [] st)
    as (info & st1 & ->).
  apply IH.
Qed.

(** X17: a topic with both keys, searched through a service that follows the
    interface, gets a list of sources: the function does not raise. *)
Lemma generate_sources_returns (topic_data : gmap string string)
    (st : state) :
  is_Some (topic_data !! "title") ->
  is_Some (topic_data !! "description") ->
  (forall p w, aligned (requests_get p w).1) ->
  exists sources st',
    generate_sources_for_topic requests_get list_of_set topic_data st
    = (Ok sources, st').
Proof.
  intros [topic_title Ht] [topic_description Hd] Haligned.
  unfold generate_sources_for_topic, getitem, mbind, M_bind, bind.
  rewrite Ht, Hd. cbn. unfold search_wikipedia_article.
  destruct (SearchClient_facts.search_loop_returns requests_get
              (search_queries_to_try topic_title) Haligned [] st)
    as (info & st1 & ->).
  destruct (nonempty topic_description); [|eauto].
  destruct (sub_topic_loop requests_get _ _ st1) as [[acc'|e] st2] eqn:Hloop;
    [eauto|].
  match type of Hloop with
  | sub_topic_loop _ ?ks ?acc _ = _ =>
      destruct (sub_topic_loop_returns ks Haligned acc st1)
        as (acc' & st2' & Hret)
  end.
  rewrite Hret in Hloop. discriminate.
Qed.

End Service.

(** C1: the list returned for a topic holds no two sources with the same url,
    whatever the search service answers and in whatever order the keywords
    are listed. *)
Theorem generate_sources_no_duplicate_url {W : Type}
    (requests_get : params -> W -> response * W)
    (list_of_set : list string -> list string)
    (topic_data : gmap string string) (st st' : state)
    (sources : list source) :
  generate_sources_for_topic requests_get list_of_set topic_data st
  = (Ok sources, st') ->
  NoDup (url <$> sources).
Proof.
  unfold generate_sources_for_topic, getitem, mbind, M_bind, bind.
  destruct (topic_data !! "title") as [topic_title|]; [|discriminate].
  destruct (topic_data !! "description") as [topic_description|];
    [|discriminate].
  cbn.
  destruct (search_wikipedia_article requests_get topic_title st)
    as [[wiki_info|e] st1]; [|discriminate].
  pose proof (add_source_linked wiki_info (9 # 10)%Q topic_title _
                linked_empty) as Hacc.
  destruct (nonempty topic_description).
  - destruct (sub_topic_loop requests_get _ _ st1) as [[acc'|e] st2] eqn:Hloop;
      [|discriminate].
    intros [= <- _].
    apply (sub_topic_loop_linked requests_get _ _ _ _ _ Hacc Hloop).
  - intros [= <- _]. apply Hacc.
Qed.

(** All four searches of this topic find the article on linear algebra or the
    one on matrices; each is emitted once. *)
Lemma generate_sources_no_duplicate_url_witness :
  exists sources st',
    generate_sources_for_topic service remove_dups linear_algebra start
    = (Ok sources, st')
    /\ context_for_topic <$> sources = ["Linear Algebra"; "matrices"]
    /\ NoDup (url <$> sources).
Proof.
  eexists _, _. split; [vm_compute; reflexivity|].
  split; [reflexivity|].
  eapply (generate_sources_no_duplicate_url service remove_dups
            linear_algebra start).
  vm_compute; reflexivity.
Defined.

(** C10: a topic without the key [title] or without the key [description]
    makes the function raise [KeyError] for the missing key, with the state
    untouched: no request was made. *)
Theorem generate_sources_missing_key {W : Type}
    (requests_get : params -> W -> response * W)
    (list_of_set : list string -> list string)
    (topic_data : gmap string string) (st : state) :
  topic_data !! "title" = None \/ topic_data !! "description" = None ->
  exists key,
    (key = "title" \/ key = "description")
    /\ topic_data !! key = None
    /\ generate_sources_for_topic requests_get list_of_set topic_data st
       = (Raise (KeyError key), st).
Proof.
  intros Hmissing.
  unfold generate_sources_for_topic, getitem, mbind, M_bind, bind.
  destruct (topic_data !! "title") as [topic_title|] eqn:Ht.
  - destruct Hmissing as [?|Hd]; [discriminate|].
    exists "description". rewrite Hd. cbn. auto.
  - exists "title". rewrite Ht. cbn. auto.
Qed.

Lemma generate_sources_missing_key_witness :
  exists key,
    (key = "title" \/ key = "description")
    /\ untitled !! key = None
    /\ generate_sources_for_topic service remove_dups untitled start
       = (Raise (KeyError key), start).
Proof.
  apply (generate_sources_missing_key service remove_dups untitled start).
  left. reflexivity.
Defined.

End EvidenceLinker_facts.

(** ** GoalDecomposer *)

Module GoalDecomposer_facts.

Import Py topicCreate topicCreate_spec.

(** The success path: text that parses, fenced or not, is returned as parsed;
    nothing looks into the topics. *)
Lemma generate_learning_roadmap_parsed {W : Type}
    (generate_content : string -> W -> (exn + string) * W)
    (json_loads : string -> option value)
    (learning_goal text : string) (topics : value) (w w' : W) :
  generate_content (prompt learning_goal) w = (inr text, w') ->
  json_loads (strip_fences (strip text)) = Some topics ->
  generate_learning_roadmap generate_content json_loads learning_goal w
  = (Ok topics, w').
Proof.
  intros Hask Hloads.
  unfold generate_learning_roadmap, try_except, mbind, M_bind, bind, ask, loads.
  rewrite Hask, Hloads. reflexivity.
Qed.

(** C6: when the collaborator raises an [Exception] (an error of the service,
    a network failure), or answers text that does not parse as JSON once
    stripped of white space and fences, the function returns the empty list;
    it does not raise. *)
Theorem generate_learning_roadmap_failure {W : Type}
    (generate_content : string -> W -> (exn + string) * W)
    (json_loads : string -> option value)
    (learning_goal : string) (w : W) :
  match (generate_content (prompt learning_goal) w).1 with
  | inl e => is_Exception e = true
  | inr text => json_loads (strip_fences (strip text)) = None
  end ->
  generate_learning_roadmap generate_content json_loads learning_goal w
  = (Ok (List []), (generate_content (prompt learning_goal) w).2).
Proof.
  unfold generate_learning_roadmap, try_except, mbind, M_bind, bind, ask, loads.
  destruct (generate_content (prompt learning_goal) w) as [[e|text] w']; cbn.
  - intros ->. reflexivity.
  - intros ->. reflexivity.
Qed.

Lemma generate_learning_roadmap_failure_witness :
  generate_learning_roadmap offline loads_empty_array "Learn Web Development" 0
  = (Ok (List []), 1)
  /\ generate_learning_roadmap chatty loads_empty_array "Learn Web Development" 0
     = (Ok (List []), 1).
Proof.
  split.
  - apply (generate_learning_roadmap_failure offline loads_empty_array
             "Learn Web Development" 0).
    reflexivity.
  - apply (generate_learning_roadmap_failure chatty loads_empty_array
             "Learn Web Development" 0).
    reflexivity.
Defined.

Example strip_fences_tagged :
  strip_fences (strip (fence ++ "json" ++ nl ++ "[]" ++ nl ++ fence ++ nl))
  = "[]".
Proof. reflexivity. Qed.

Example generate_learning_roadmap_fenced :
  generate_learning_roadmap fenced loads_empty_array "Learn Web Development" 0
  = (Ok (List []), 1).
Proof. reflexivity. Qed.

(** An exception that is not an [Exception] is not caught. *)
Example generate_learning_roadmap_interrupt :
  generate_learning_roadmap interrupted loads_empty_array
    "Learn Web Development" 0
  = (Raise KeyboardInterrupt, 1).
Proof. reflexivity. Qed.

End GoalDecomposer_facts.

(** ** The endpoint *)

Module Endpoint_facts.

Import Py roadmap roadmap_spec.

(** C9: a body without [goal] is refused with status 400 and the state is
    untouched (the pipeline was not called); a body whose goal is a non-empty
    string is handed to the pipeline, called once with that goal, and the
    outcome is the pipeline's: no [HTTPException] is raised. *)
Theorem generate_roadmap_endpoint_goal {W R E : Type}
    (ingest_roadmap_into_neo4j : value -> value -> W -> (E + R) * W)
    (data : gmap string value) (st : state) :
  (data !! "goal" = None ->
   generate_roadmap_endpoint ingest_roadmap_into_neo4j data st
   = (Raise (HTTPException 400 "Missing learning goal."), st))
  /\ (forall goal, data !! "goal" = Some (Str goal) -> goal <> EmptyString ->
      let run := generate_roadmap_endpoint ingest_roadmap_into_neo4j data st in
      run = ingest ingest_roadmap_into_neo4j (Str goal)
              (dict_get data "user_id" (Str "user123")) st
      /\ calls run.2
         = (calls st
            ++ [Ingest (Str goal) (dict_get data "user_id" (Str "user123"))])%list
      /\ forall status_code detail,
           run.1 <> Raise (HTTPException status_code detail)).
Proof.
  unfold generate_roadmap_endpoint, dict_get. split.
  - intros ->. reflexivity.
  - intros goal -> Hgoal. cbn.
    destruct (String.eqb_spec goal EmptyString) as [|_]; [contradiction|].
    cbn. unfold mbind, M_bind, bind, ingest.
    destruct (ingest_roadmap_into_neo4j _ _ _) as [[e|result] w'];
      repeat split; cbn; congruence.
Qed.

Lemma generate_roadmap_endpoint_goal_witness :
  generate_roadmap_endpoint echo ∅ fresh
  = (Raise (HTTPException 400 "Missing learning goal."), fresh)
  /\ generate_roadmap_endpoint echo {[ "goal" := Str "Learn Web Development" ]}
       fresh
     = (Ok (Str "Learn Web Development"),
        {| world := 1;
           calls := [Ingest (Str "Learn Web Development") (Str "user123")] |}).
Proof.
  split.
  - apply (generate_roadmap_endpoint_goal echo ∅ fresh). reflexivity.
  - refine (eq_trans
              (proj1 (proj2 (generate_roadmap_endpoint_goal echo
                               {[ "goal" := Str "Learn Web Development" ]}
                               fresh)
                            "Learn Web Development" _ _)) _).
    + reflexivity.
    + discriminate.
    + reflexivity.
Defined.

(** Values that are present but falsy are refused as well. *)
Example generate_roadmap_endpoint_empty_goal :
  generate_roadmap_endpoint echo {[ "goal" := Str EmptyString ]} fresh
  = (Raise (HTTPException 400 "Missing learning goal."), fresh).
Proof. reflexivity. Qed.

End Endpoint_facts.

(** ** GraphValidator *)

Module GraphValidator_facts.

Import GraphValidator GraphValidator_spec.

Lemma earlier_cons t0 topics i x :
  earlier (t0 :: topics) (S i) x <-> id t0 = x \/ earlier topics i x.
Proof.
  split.
  - intros ([|j] & t' & Hj & Hlook & Hid); cbn in Hlook.
    + left. congruence.
    + right. exists j, t'. split; [lia|]. auto.
  - intros [Hid|(j & t' & Hj & Hlook & Hid)].
    + exists 0, t0. split; [lia|]. auto.
    + exists (S j), t'. split; [lia|]. auto.
Qed.

Lemma validate_from_duplicate topics : forall position seen i t,
  topics !! i = Some t ->
  id t ∈ seen \/ earlier topics i (id t) ->
  DuplicateId (position + i) (id t) ∈ validate_from position seen topics.
Proof.
  induction topics as [|t0 rest IH]; intros position seen i t Hlook Hdup;
    [discriminate|].
  cbn [validate_from]. destruct i as [|i]; cbn in Hlook.
  - injection Hlook as ->. destruct Hdup as [Hseen|(j & ? & Hj & _)]; [|lia].
    rewrite Nat.add_0_r, decide_True by assumption.
    apply list_elem_of_here.
  - rewrite !elem_of_app. right; right.
    replace (position + S i) with (S position + i) by lia.
    apply IH; [assumption|].
    destruct Hdup as [Hseen|Hearlier].
    + left. set_solver.
    + apply earlier_cons in Hearlier as [Hid|Hearlier]; [|by right].
      left. set_solver.
Qed.

Lemma validate_from_unresolved topics : forall position seen i t p,
  topics !! i = Some t ->
  p ∈ prerequisites t ->
  p ∉ seen ->
  ~ earlier topics i p ->
  UnresolvedPrerequisite (position + i) p
    ∈ validate_from position seen topics.
Proof.
  induction topics as [|t0 rest IH]; intros position seen i t p Hlook Hp Hseen Hno;
    [discriminate|].
  cbn [validate_from]. destruct i as [|i]; cbn in Hlook.
  - injection Hlook as ->. rewrite !elem_of_app. right; left.
    rewrite Nat.add_0_r. apply list_elem_of_fmap_2, list_elem_of_filter.
    split; assumption.
  - rewrite !elem_of_app. right; right.
    replace (position + S i) with (S position + i) by lia.
    apply IH with t; [assumption|assumption| |].
    + intros [Hid|Hin]%elem_of_union; [|contradiction].
      apply elem_of_singleton in Hid. apply Hno, earlier_cons. left. congruence.
    + intros Hearlier. apply Hno, earlier_cons. by right.
Qed.

(** Nothing else is reported: a report names a topic of the sequence and a
    defect it has. *)
Lemma validate_from_sound topics : forall position seen v,
  v ∈ validate_from position seen topics ->
  match v with
  | DuplicateId n x =>
      exists i t, n = position + i /\ topics !! i = Some t /\ id t = x
                  /\ (x ∈ seen \/ earlier topics i x)
  | UnresolvedPrerequisite n p =>
      exists i t, n = position + i /\ topics !! i = Some t
                  /\ p ∈ prerequisites t /\ (p ∉ seen) /\ ~ earlier topics i p
  end.
Proof.
  induction topics as [|t0 rest IH]; intros position seen v Hv;
    [inversion Hv|].
  cbn [validate_from] in Hv. rewrite !elem_of_app in Hv.
  destruct Hv as [Hv|[Hv|Hv]].
  - case_decide as Hseen; [|inversion Hv].
    apply list_elem_of_singleton in Hv as ->.
    exists 0, t0. rewrite Nat.add_0_r. auto.
  - apply list_elem_of_fmap in Hv as (p & -> & Hp).
    apply list_elem_of_filter in Hp as [Hseen Hp].
    exists 0, t0. rewrite Nat.add_0_r. repeat split; auto.
    intros (j & ? & Hj & _). lia.
  - apply IH in Hv. destruct v as [n x|n p].
    + destruct Hv as (i & t & -> & Hlook & Hid & Hdup).
      exists (S i), t. repeat split; [lia|assumption|assumption|].
      rewrite earlier_cons.
      destruct Hdup as [[Hx|Hx]%elem_of_union|Hearlier]; auto.
      apply elem_of_singleton in Hx. auto.
    + destruct Hv as (i & t & -> & Hlook & Hp & Hseen & Hno).
      exists (S i), t. repeat split; [lia|assumption|assumption|set_solver|].
      rewrite earlier_cons. intros [Hid|Hearlier]; [|contradiction].
      apply Hseen. set_solver.
Qed.

Lemma validate_sound topics v :
  v ∈ validate topics ->
  match v with
  | DuplicateId i x =>
      exists t, topics !! i = Some t /\ id t = x /\ earlier topics i x
  | UnresolvedPrerequisite i p =>
      exists t, topics !! i = Some t /\ p ∈ prerequisites t
                /\ ~ earlier topics i p
  end.
Proof.
  intros Hv. apply validate_from_sound in Hv. destruct v as [n x|n p].
  - destruct Hv as (i & t & -> & Hlook & Hid & [Hseen|Hearlier]);
      [by apply not_elem_of_empty in Hseen|]. eauto.
  - destruct Hv as (i & t & -> & Hlook & Hp & _ & Hno). eauto.
Qed.

(** C7: the validator reports, at its position, every topic whose id is the
    id of an earlier topic, and every prerequisite of a topic that is not the
    id of a topic at a strictly earlier position. *)
Theorem validate_flags_defects (topics : list Topic) (i : nat) (t : Topic) :
  topics !! i = Some t ->
  (earlier topics i (id t) -> DuplicateId i (id t) ∈ validate topics)
  /\ (forall p, p ∈ prerequisites t -> ~ earlier topics i p ->
      UnresolvedPrerequisite i p ∈ validate topics).
Proof.
  intros Hlook. unfold validate. split.
  - intros Hdup.
    apply (validate_from_duplicate topics 0 ∅ i t Hlook). by right.
  - intros p Hp Hno.
    apply (validate_from_unresolved topics 0 ∅ i t p Hlook Hp); [|assumption].
    apply not_elem_of_empty.
Qed.

Lemma validate_flags_defects_witness :
  DuplicateId 2 "html_basics" ∈ validate flawed
  /\ UnresolvedPrerequisite 1 "js_intro" ∈ validate flawed.
Proof.
  split.
  - apply (proj1 (validate_flags_defects flawed 2 (topic "html_basics" [])
                    eq_refl)).
    exists 0, (topic "html_basics" []). split; [lia|]. split; reflexivity.
  - apply (proj2 (validate_flags_defects flawed 1
                    (topic "css_fundamentals" ["js_intro"]) eq_refl)).
    + apply list_elem_of_here.
    + intros (j & t' & Hj & Hlook & Hid).
      destruct j as [|[|j]]; [|lia|lia].
      injection Hlook as <-. discriminate Hid.
Defined.

Example validate_flawed :
  validate flawed
  = [UnresolvedPrerequisite 1 "js_intro"; DuplicateId 2 "html_basics"].
Proof. vm_compute. reflexivity. Qed.

Example validate_web_development : validate web_development = [].
Proof. vm_compute. reflexivity. Qed.

End GraphValidator_facts.

(** * Further properties of the code *)

(** ** Texts and their pieces *)

Module Text_facts.

Import Py Coverage_spec.

#[local] Arguments String.append : simpl nomatch.

Lemma append_nil_r s : s ++ EmptyString = s.
Proof. induction s as [|c s IH]; cbn; congruence. Qed.

Lemma append_assoc a b c : (a ++ b) ++ c = a ++ (b ++ c).
Proof. induction a as [|x a IH]; cbn; congruence. Qed.

Lemma len_append a b : len (a ++ b) = len a + len b.
Proof. unfold len. induction a as [|x a IH]; cbn; congruence. Qed.

Lemma len_lower s : len (lower s) = len s.
Proof. unfold len. induction s as [|c s IH]; cbn; congruence. Qed.

Lemma lower_append a b : lower (a ++ b) = lower a ++ lower b.
Proof. induction a as [|x a IH]; cbn; congruence. Qed.

Lemma drop_lower n : forall s, drop n (lower s) = lower (drop n s).
Proof. induction n as [|n IH]; intros [|c s]; cbn; auto. Qed.

Lemma drop_append a b : drop (len a) (a ++ b) = b.
Proof. induction a as [|x a IH]; cbn; auto. Qed.

Lemma startswith_nil s : startswith s EmptyString = true.
Proof. destruct s; reflexivity. Qed.

Lemma startswith_append p s : startswith (p ++ s) p = true.
Proof.
  induction p as [|x p IH]; cbn; [apply startswith_nil|].
  now rewrite Ascii.eqb_refl.
Qed.

Lemma startswith_split s p :
  startswith s p = true -> s = p ++ drop (len p) s.
Proof.
  revert s. induction p as [|x p IH]; intros s; [reflexivity|].
  destruct s as [|y s]; cbn; [discriminate|].
  destruct (Ascii.eqb_spec x y) as [->|]; [|discriminate]. cbn.
  intros H. f_equal. apply IH, H.
Qed.

Lemma piece_of_refl s : piece_of s s.
Proof. exists EmptyString, EmptyString. cbn. now rewrite append_nil_r. Qed.

Lemma piece_of_trans a b c : piece_of a b -> piece_of b c -> piece_of a c.
Proof.
  intros (p1 & q1 & ->) (p2 & q2 & ->).
  exists (p2 ++ p1), (q1 ++ q2). now rewrite !append_assoc.
Qed.

Lemma piece_of_suffix pre s : piece_of s (pre ++ s).
Proof. exists pre, EmptyString. now rewrite append_nil_r. Qed.

Lemma piece_of_prefix s post : piece_of s (s ++ post).
Proof. exists EmptyString, post. reflexivity. Qed.

Lemma piece_of_len k s : piece_of k s -> len k <= len s.
Proof. intros (pre & post & ->). rewrite !len_append. lia. Qed.

Lemma piece_of_has_char c k s :
  piece_of k s -> has_char c s = false -> has_char c k = false.
Proof.
  intros (pre & post & ->). induction pre as [|x pre IH]; cbn.
  - induction k as [|y k IHk]; cbn; [reflexivity|].
    intros [-> H]%orb_false_iff. auto.
  - intros [_ H]%orb_false_iff. auto.
Qed.

Lemma drop_suffix n : forall s, exists pre, s = pre ++ drop n s.
Proof.
  induction n as [|n IH]; intros s; [by exists EmptyString|].
  destruct s as [|c s]; [by exists EmptyString|].
  destruct (IH s) as [pre Hpre]. exists (String c pre). cbn. congruence.
Qed.

Lemma lstrip_suffix P s : exists pre, s = pre ++ lstrip_with P s.
Proof.
  induction s as [|c s [pre IH]]; [by exists EmptyString|]. cbn.
  destruct (P c); [|by exists EmptyString].
  exists (String c pre). cbn. congruence.
Qed.

Lemma rstrip_prefix P s : exists post, s = rstrip_with P s ++ post.
Proof.
  induction s as [|c s [post IH]]; [by exists EmptyString|]. cbn.
  destruct (rstrip_with P s) as [|d r].
  - destruct (P c); [by exists (String c s)|by exists s].
  - exists post. cbn in *. congruence.
Qed.

Lemma drop_last_prefix s : exists post, s = drop_last s ++ post.
Proof.
  induction s as [|c s [post IH]]; [by exists EmptyString|]. cbn.
  destruct s as [|d s]; [by exists (String c EmptyString)|].
  exists post. cbn in *. congruence.
Qed.

Lemma piece_of_drop n s : piece_of (drop n s) s.
Proof.
  destruct (drop_suffix n s) as [pre H]. rewrite H at 2. apply piece_of_suffix.
Qed.

Lemma piece_of_lstrip P s : piece_of (lstrip_with P s) s.
Proof.
  destruct (lstrip_suffix P s) as [pre H]. rewrite H at 2.
  apply piece_of_suffix.
Qed.

Lemma piece_of_rstrip P s : piece_of (rstrip_with P s) s.
Proof.
  destruct (rstrip_prefix P s) as [post H]. rewrite H at 2.
  apply piece_of_prefix.
Qed.

Lemma piece_of_strip s : piece_of (strip s) s.
Proof.
  unfold strip. eapply piece_of_trans; [apply piece_of_rstrip|].
  apply piece_of_lstrip.
Qed.

Lemma piece_of_drop_last s : piece_of (drop_last s) s.
Proof.
  destruct (drop_last_prefix s) as [post H]. rewrite H at 2.
  apply piece_of_prefix.
Qed.

(** A non-empty text is what [s[:-1]] keeps followed by its last character. *)
Lemma last_split s :
  s <> EmptyString ->
  exists x, s = drop_last s ++ String x EmptyString
            /\ drop (len s - 1) s = String x EmptyString.
Proof.
  induction s as [|c s IH]; [congruence|]. intros _.
  destruct s as [|d s]; [by exists c|].
  destruct IH as (x & Hsplit & Hdrop); [discriminate|].
  exists x. split.
  - change (drop_last (String c (String d s)))
      with (String c (drop_last (String d s))).
    cbn [append]. now rewrite <- Hsplit.
  - unfold len in *. cbn [String.length] in *.
    replace (S (S (String.length s)) - 1) with (S (S (String.length s) - 1))
      by lia.
    exact Hdrop.
Qed.

Lemma lower_char_s x :
  lower_char x = "s"%char -> x = "s"%char \/ x = "S"%char.
Proof.
  destruct x as [[] [] [] [] [] [] [] []]; vm_compute; intros H;
    first [discriminate H | auto].
Qed.

Lemma endswith_s_last c :
  endswith (lower c) "s" = true ->
  c = drop_last c ++ "s" \/ c = drop_last c ++ "S".
Proof.
  unfold endswith. rewrite len_lower, drop_lower.
  intros [Hlen Hlast]%andb_true_iff.
  apply Nat.leb_le in Hlen. apply String.eqb_eq in Hlast.
  destruct (last_split c) as (x & Hsplit & Hdrop).
  { intros ->. cbn in Hlen. lia. }
  change (len "s") with 1 in Hlast. rewrite Hdrop in Hlast. cbn in Hlast.
  injection Hlast as Hx. apply lower_char_s in Hx as [-> | ->]; auto.
Qed.

End Text_facts.

(** ** TextNormalizer, continued *)

Module TextNormalizer_more.

Import Py Source_gen Source_gen_spec Coverage_spec Text_facts.

#[local] Arguments String.append : simpl nomatch.

Lemma strip_prefixes_piece ps : forall title,
  piece_of (strip_prefixes ps title) title.
Proof.
  induction ps as [|p ps IH]; intros title; [apply piece_of_refl|].
  cbn. eapply piece_of_trans; [apply IH|].
  unfold re_sub_prefix.
  destruct (startswith _ _); [apply piece_of_drop|apply piece_of_refl].
Qed.

Lemma singularize_piece cleaned : piece_of (singularize cleaned) cleaned.
Proof.
  unfold singularize.
  repeat match goal with
         | |- context [if ?b then _ else _] => destruct b
         end;
    try apply piece_of_strip.
  eapply piece_of_trans; [apply piece_of_drop_last|apply piece_of_strip].
Qed.

(** X1: the cleaned title is a contiguous piece of the title: characters are
    only removed, at the two ends, never changed, added or reordered. *)
Theorem clean_topic_title_piece (title : string) :
  piece_of (clean_topic_title title) title.
Proof.
  unfold clean_topic_title.
  eapply piece_of_trans; [apply singularize_piece|apply strip_prefixes_piece].
Qed.

(** X2: after the prefixes and the surrounding white space, the plural
    heuristic removes at most one character, a final s or S, and none at all
    from a text that ends, in any case, in ss, ics, esis or us. *)
Theorem singularize_drops_at_most_an_s (cleaned : string) :
  let c := strip cleaned in
  (singularize cleaned = c
   \/ c = singularize cleaned ++ "s" \/ c = singularize cleaned ++ "S")
  /\ (forall suffix, suffix ∈ ["ss"; "ics"; "esis"; "us"] ->
      endswith (lower c) suffix = true -> singularize cleaned = c).
Proof.
  cbv zeta. unfold singularize. split.
  - destruct (endswith (lower (strip cleaned)) "s") eqn:Hs; [|auto].
    repeat match goal with
           | |- context [if ?b then _ else _] => destruct b
           end; auto.
    right. apply endswith_s_last, Hs.
  - intros suffix Hin Hend.
    repeat (apply elem_of_cons in Hin as [->|Hin]); [| | | |inversion Hin];
      cbn [existsb]; rewrite Hend; cbn;
      rewrite ?andb_false_r, ?orb_true_r; cbn;
      repeat match goal with
             | |- context [if ?b then _ else _] => destruct b
             end; reflexivity.
Qed.

Lemma singularize_drops_at_most_an_s_witness :
  singularize " Quantum Mechanics " = "Quantum Mechanics"
  /\ "Vector Spaces" = singularize "Vector Spaces" ++ "s".
Proof.
  split.
  - apply (proj2 (singularize_drops_at_most_an_s " Quantum Mechanics ") "ics").
    + apply list_elem_of_further, list_elem_of_here.
    + reflexivity.
  - destruct (proj1 (singularize_drops_at_most_an_s "Vector Spaces"))
      as [H|[H|H]].
    + discriminate H.
    + exact H.
    + discriminate H.
Defined.

End TextNormalizer_more.

(** ** KeywordExtractor, continued *)

Module KeywordExtractor_more.

Import Py Source_gen Source_gen_spec Coverage_spec Text_facts.

#[local] Arguments String.append : simpl nomatch.

Lemma in_list_spec x l : in_list x l = true <-> x ∈ l.
Proof.
  unfold in_list. rewrite existsb_exists. split.
  - intros (y & Hy & ->%String.eqb_eq). by apply list_elem_of_In.
  - intros Hx. exists x. split; [by apply list_elem_of_In|].
    apply String.eqb_refl.
Qed.

Lemma piece_of_nil s : piece_of EmptyString s.
Proof. exists EmptyString, s. reflexivity. Qed.

Lemma piece_of_cons c k s : piece_of k s -> piece_of k (String c s).
Proof. intros (pre & post & ->). by exists (String c pre), post. Qed.

(** The fragments of [re.split] are pieces of the text, the first one a
    prefix of it. *)
Lemma re_split_from_pieces s : forall skip,
  (forall g, g ∈ re_split_from skip s -> piece_of g s)
  /\ exists f fs post, re_split_from 0 s = f :: fs /\ s = f ++ post.
Proof.
  induction s as [|c s IH]; intros skip.
  - split; [|by exists EmptyString, [], EmptyString].
    cbn. intros g ->%list_elem_of_singleton. apply piece_of_refl.
  - destruct (IH 0) as [Hall0 (f & fs & post & Hf & Hpost)].
    assert (Hzero : (forall g, g ∈ re_split_from 0 (String c s) ->
                            piece_of g (String c s))
                    /\ exists f' fs' post',
                         re_split_from 0 (String c s) = f' :: fs'
                         /\ String c s = f' ++ post').
    { cbn [re_split_from]. destruct (delim_len (String c s)) as [|n].
      - rewrite Hf. split.
        + intros g [->|Hg]%elem_of_cons.
          * rewrite Hpost. apply (piece_of_prefix (String c f)).
          * apply piece_of_cons, Hall0. rewrite Hf. by right.
        + exists (String c f), fs, post. split; [reflexivity|].
          cbn. congruence.
      - split.
        + intros g [->|Hg]%elem_of_cons; [apply piece_of_nil|].
          apply piece_of_cons. by apply (proj1 (IH n)).
        + by exists EmptyString, (re_split_from n s), (String c s). }
    split; [|apply Hzero].
    destruct skip as [|k]; [apply Hzero|].
    cbn [re_split_from]. intros g Hg.
    apply piece_of_cons. by apply (proj1 (IH k)).
Qed.

Lemma delim_len_zero c s :
  delim_len (String c s) = 0 ->
  Ascii.eqb c ";" = false /\ Ascii.eqb c "," = false.
Proof.
  cbn [delim_len].
  destruct (Ascii.eqb c ";"), (Ascii.eqb c ","); cbn; auto; discriminate.
Qed.

(** No fragment holds a comma or a semicolon. *)
Lemma re_split_from_separators s : forall skip g,
  g ∈ re_split_from skip s ->
  has_char "," g = false /\ has_char ";" g = false.
Proof.
  induction s as [|c s IH]; intros skip g.
  - cbn. intros ->%list_elem_of_singleton. auto.
  - cbn [re_split_from]. destruct skip as [|k]; [|apply IH].
    destruct (delim_len (String c s)) as [|n] eqn:Hd.
    + apply delim_len_zero in Hd as [Hsemi Hcomma].
      destruct (re_split_from 0 s) as [|f fs] eqn:Hf.
      * intros ->%list_elem_of_singleton. cbn. now rewrite Hsemi, Hcomma.
      * intros [->|Hg]%elem_of_cons.
        -- cbn. rewrite Hsemi, Hcomma. cbn.
           apply (IH 0). rewrite Hf. by left.
        -- apply (IH 0). rewrite Hf. by right.
    + intros [->|Hg]%elem_of_cons; [auto|]. by apply (IH n).
Qed.

Lemma after_first_suffix sep s rest :
  after_first sep s = Some rest -> exists pre, s = pre ++ rest.
Proof.
  induction s as [|c s IH]; cbn; [discriminate|].
  destruct (Ascii.eqb c sep).
  - intros [= ->]. by exists (String c EmptyString).
  - intros [pre ->]%IH. by exists (String c pre).
Qed.

Lemma re_sub_leading_piece part : piece_of (re_sub_leading part) part.
Proof.
  unfold re_sub_leading.
  destruct (lstrip_suffix isspace part) as [pre Hpre].
  destruct (lstrip_with isspace part) as [|c rest]; [apply piece_of_refl|].
  destruct (Ascii.eqb_spec c "(") as [->|Hc].
  - cbn. exists (pre ++ "("), EmptyString.
    rewrite append_nil_r, append_assoc. exact Hpre.
  - destruct c as [[] [] [] [] [] [] [] []];
      first [apply piece_of_refl | congruence].
Qed.

Lemma fold_left_keeps (Q : string -> Prop)
    (f : list string -> string -> list string) (parts : list string) :
  forall acc,
  (forall acc part, part ∈ parts -> Forall Q acc -> Forall Q (f acc part)) ->
  Forall Q acc -> Forall Q (fold_left f parts acc).
Proof.
  induction parts as [|part parts IH]; intros acc Hstep Hacc; [exact Hacc|].
  cbn. apply IH.
  - intros acc' part' Hin. apply Hstep. by right.
  - apply Hstep; [by left|exact Hacc].
Qed.

Lemma kept_piece description fragment k :
  piece_of fragment description ->
  has_char "," fragment = false /\ has_char ";" fragment = false ->
  piece_of k fragment -> 3 < len k ->
  kept description k.
Proof.
  intros Hfd [Hcomma Hsemi] Hkf Hlen. repeat split.
  - eapply piece_of_trans; eassumption.
  - eapply piece_of_has_char; eassumption.
  - eapply piece_of_has_char; eassumption.
  - exact Hlen.
Qed.

Lemma first_pass_kept description :
  Forall (kept description) (first_pass (re_split description)).
Proof.
  unfold first_pass. apply fold_left_keeps; [|constructor].
  intros acc part Hpart Hacc.
  destruct (nonempty (strip part)); [|exact Hacc].
  destruct (nonempty _ && (3 <? len _)) eqn:Hkeep; [|exact Hacc].
  apply andb_true_iff in Hkeep as [_ Hlen%Nat.ltb_lt].
  apply Forall_app. split; [exact Hacc|]. constructor; [|constructor].
  eapply kept_piece;
    [apply (proj1 (re_split_from_pieces description 0)), Hpart
    |apply (re_split_from_separators description 0), Hpart
    | |exact Hlen].
  eapply piece_of_trans; [apply re_sub_leading_piece|].
  eapply piece_of_trans; [apply piece_of_rstrip|apply piece_of_strip].
Qed.

Lemma colon_pass_kept description keywords :
  Forall (kept description) keywords ->
  Forall (kept description) (colon_pass description keywords).
Proof.
  intros Hacc. unfold colon_pass.
  destruct (after_first ":" description) as [rest|] eqn:Hrest; [|exact Hacc].
  apply after_first_suffix in Hrest as [pre Hpre].
  assert (Hpost : piece_of (strip rest) description).
  { eapply piece_of_trans; [apply piece_of_strip|].
    rewrite Hpre. apply piece_of_suffix. }
  apply fold_left_keeps; [|exact Hacc].
  intros acc mp Hmp Hkept.
  destruct (nonempty _ && (3 <? len _) && negb _) eqn:Hkeep; [|exact Hkept].
  apply andb_true_iff in Hkeep as [Hkeep _].
  apply andb_true_iff in Hkeep as [_ Hlen%Nat.ltb_lt].
  apply Forall_app. split; [exact Hkept|]. constructor; [|constructor].
  eapply kept_piece;
    [eapply piece_of_trans;
       [apply (proj1 (re_split_from_pieces (strip rest) 0)), Hmp|exact Hpost]
    |apply (re_split_from_separators (strip rest) 0), Hmp
    |apply piece_of_strip
    |exact Hlen].
Qed.

Lemma keyword_list_kept description k :
  k ∈ keyword_list description ->
  kept description k
  /\ in_list (lower k) unwanted_keywords = false
  /\ count_words k <= 5.
Proof.
  unfold keyword_list. intros [Hfilter Hk]%list_elem_of_filter.
  apply Is_true_true, andb_true_iff in Hfilter as [Hstop Hwords].
  split; [|split].
  - pose proof (colon_pass_kept description _ (first_pass_kept description))
      as Hall.
    rewrite Forall_forall in Hall. by apply Hall.
  - by apply negb_true_iff.
  - by apply Nat.leb_le.
Qed.

Section Listing.

Variable list_of_set : list string -> list string.
Hypothesis list_of_set_elem : forall l x, x ∈ list_of_set l <-> x ∈ l.

(** X3: whatever the description, a keyword that is returned has more than
    three characters and at most five words, and is not on the stoplist (in
    any case). *)
Theorem extract_keywords_filtered (description k : string) :
  k ∈ extract_keywords_from_description list_of_set description ->
  3 < len k
  /\ count_words k <= 5
  /\ lower k ∉ unwanted_keywords.
Proof.
  unfold extract_keywords_from_description. rewrite list_of_set_elem.
  intros ((_ & _ & _ & Hlen) & Hstop & Hwords)%keyword_list_kept.
  repeat split; [exact Hlen|exact Hwords|].
  intros Hin%in_list_spec. congruence.
Qed.

(** X4: a keyword that is returned is a contiguous piece of the description:
    fragments are cut out and trimmed, never rewritten. *)
Theorem extract_keywords_piece (description k : string) :
  k ∈ extract_keywords_from_description list_of_set description ->
  piece_of k description.
Proof.
  unfold extract_keywords_from_description. rewrite list_of_set_elem.
  intros (Hkept & _)%keyword_list_kept. apply Hkept.
Qed.

(** X5: no keyword that is returned holds a comma or a semicolon. *)
Theorem extract_keywords_separators (description k : string) :
  k ∈ extract_keywords_from_description list_of_set description ->
  has_char "," k = false /\ has_char ";" k = false.
Proof.
  unfold extract_keywords_from_description. rewrite list_of_set_elem.
  intros ((_ & Hcomma & Hsemi & _) & _)%keyword_list_kept. auto.
Qed.

(** X6: a description of three characters or fewer, the empty one among
    them, yields no keyword. *)
Theorem extract_keywords_short (description : string) :
  len description <= 3 ->
  extract_keywords_from_description list_of_set description = [].
Proof.
  intros Hshort. unfold extract_keywords_from_description.
  destruct (list_of_set (keyword_list description)) as [|k ks] eqn:Hks;
    [reflexivity|].
  assert (Hk : k ∈ keyword_list description).
  { apply list_of_set_elem. rewrite Hks. by left. }
  apply keyword_list_kept in Hk as ((Hpiece%piece_of_len & _ & _ & Hlen) & _).
  lia.
Qed.

End Listing.

Lemma extract_keywords_filtered_witness :
  3 < len "matrices" /\ count_words "matrices" <= 5
  /\ lower "matrices" ∉ unwanted_keywords.
Proof.
  apply (extract_keywords_filtered remove_dups elem_of_remove_dups
           example_description "matrices").
  unfold extract_keywords_from_description.
  apply elem_of_remove_dups, list_elem_of_further, list_elem_of_here.
Defined.

Lemma extract_keywords_piece_witness :
  piece_of "matrices" example_description.
Proof.
  apply (extract_keywords_piece remove_dups elem_of_remove_dups
           example_description "matrices").
  unfold extract_keywords_from_description.
  apply elem_of_remove_dups, list_elem_of_further, list_elem_of_here.
Defined.

Lemma extract_keywords_separators_witness :
  has_char "," "Covers vector spaces" = false
  /\ has_char ";" "Covers vector spaces" = false.
Proof.
  apply (extract_keywords_separators remove_dups elem_of_remove_dups
           example_description "Covers vector spaces").
  unfold extract_keywords_from_description.
  apply elem_of_remove_dups, list_elem_of_here.
Defined.

Lemma extract_keywords_short_witness :
  extract_keywords_from_description remove_dups "a,b" = [].
Proof.
  apply (extract_keywords_short remove_dups elem_of_remove_dups "a,b").
  cbn. lia.
Defined.

End KeywordExtractor_more.

(** ** SearchClient, continued *)

Module SearchClient_more.

Import Py Source_gen Source_gen_spec Coverage_spec Text_facts.

#[local] Arguments String.append : simpl nomatch.

(** The three ways the loop over the results of one variant ends. *)
Lemma scan_results_cases q titles : forall urls i found_articles,
  match scan_results q i titles urls found_articles with
  | Ok (Strong a) =>
      exists j, titles !! j = Some (found_title a)
                /\ urls !! (i + j) = Some (found_url a)
                /\ strong_match q (found_title a) = true
                /\ Forall (weak q) (take j titles)
  | Ok (Weak found') =>
      Forall (weak q) titles
      /\ (forall j, j < length titles -> is_Some (urls !! (i + j)))
      /\ found' = (found_articles
                   ++ if i =? 0
                      then option_list (top_result (OpenSearch titles urls))
                      else [])%list
  | Raise e =>
      e = IndexError
      /\ exists j, j < length titles /\ urls !! (i + j) = None
                   /\ Forall (weak q) (take j titles)
  end.
Proof.
  induction titles as [|title titles IH]; intros urls i found.
  - cbn. split; [constructor|]. split; [intros j Hj; lia|].
    destruct (i =? 0); cbn; now rewrite app_nil_r.
  - cbn [scan_results].
    destruct (urls !! i) as [url|] eqn:Hurl.
    + destruct (strong_match q title) eqn:Hstrong.
      * exists 0. rewrite Nat.add_0_r. cbn. repeat split; auto.
      * specialize (IH urls (S i)
                      (if i =? 0
                       then (found ++ [{| found_title := title;
                                          found_url := url |}])%list
                       else found)).
        destruct (scan_results q (S i) titles urls _) as [[a|found']|e].
        -- destruct IH as (j & Ht & Hu & Hs & Hw).
           exists (S j). replace (i + S j) with (S i + j) by lia.
           cbn. repeat split; auto.
        -- destruct IH as (Hw & Hu & ->). split; [constructor; assumption|].
           split.
           ++ intros [|j] Hj; [rewrite Nat.add_0_r; eauto|].
              replace (i + S j) with (S i + j) by lia. apply Hu. cbn in Hj. lia.
           ++ cbn [Nat.eqb]. rewrite app_nil_r.
              destruct i as [|i]; cbn [Nat.eqb]; [|now rewrite app_nil_r].
              cbn in Hurl. destruct urls as [|u urls]; [discriminate|].
              cbn in Hurl. injection Hurl as ->. reflexivity.
        -- destruct IH as (-> & j & Hj & Hu & Hw). split; [reflexivity|].
           exists (S j). replace (i + S j) with (S i + j) by lia.
           cbn. repeat split; [lia|assumption|]. constructor; assumption.
    + split; [reflexivity|]. exists 0. rewrite Nat.add_0_r. cbn.
      repeat split; [lia|assumption|constructor].
Qed.

Section Service.

Context {W : Type}.
Variable requests_get : params -> W -> response * W.

(** One turn of the loop over the variants: a strong match is returned, or a
    title without url makes the turn raise, or the loop goes on with the
    fallback of this variant, if any, put on the list. *)
Lemma search_loop_step q rest found_articles (st : state) r w' :
  requests_get (mk_params q) (world st) = (r, w') ->
  let st1 := {| world := w'; log := log st ++ [Get (mk_params q)] |} in
  (exists a titles urls j,
      search_loop requests_get (q :: rest) found_articles st
      = (Ok (Some a), st1)
      /\ r = OpenSearch titles urls
      /\ titles !! j = Some (found_title a)
      /\ urls !! j = Some (found_url a)
      /\ strong_match q (found_title a) = true
      /\ Forall (weak q) (take j titles))
  \/ (exists titles urls j,
      search_loop requests_get (q :: rest) found_articles st
      = (Raise IndexError, st1)
      /\ r = OpenSearch titles urls
      /\ j < length titles /\ urls !! j = None
      /\ Forall (weak q) (take j titles))
  \/ (search_loop requests_get (q :: rest) found_articles st
      = search_loop requests_get rest
          (found_articles ++ option_list (top_result r))
          {| world := w';
             log := log st ++ Get (mk_params q) :: pause_after r |}
      /\ weak_only (q, r)).
Proof.
  intros Hget st1. cbn [search_loop]. unfold mbind, M_bind, bind, get.
  rewrite Hget. destruct r as [| |titles urls].
  - right; right. cbn. rewrite app_nil_r. repeat split.
  - right; right. unfold sleep, emit. cbn.
    rewrite app_nil_r, <- app_assoc. repeat split.
  - destruct titles as [|title titles].
    + right; right. unfold sleep, emit. cbn.
      rewrite app_nil_r, <- app_assoc. repeat split; [cbn; lia|constructor].
    + cbn [length Nat.ltb Nat.leb]. unfold lift.
      pose proof (scan_results_cases q (title :: titles) urls 0 found_articles)
        as Hcases.
      destruct (scan_results q 0 (title :: titles) urls found_articles)
        as [[a|found']|e].
      * left. destruct Hcases as (j & Ht & Hu & Hs & Hw).
        exists a, (title :: titles), urls, j. cbn in Hu. repeat split; auto.
      * right; right. destruct Hcases as (Hw & Hu & ->).
        unfold sleep, emit. cbn [Nat.eqb]. cbn. rewrite <- app_assoc.
        repeat split; [|exact Hw].
        unfold aligned. cbn [snd].
        destruct (Nat.le_gt_cases (length (title :: titles)) (length urls))
          as [|Hlt]; [assumption|].
        destruct (Hu (length urls)) as [u Hsome]; [exact Hlt|].
        cbn in Hsome. apply lookup_lt_Some in Hsome. lia.
      * right; left. destruct Hcases as (-> & j & Hj & Hu & Hw).
        exists (title :: titles), urls, j. cbn in Hu. repeat split; auto.
Qed.

Lemma requests_app evs1 evs2 :
  requests (evs1 ++ evs2) = (requests evs1 ++ requests evs2)%list.
Proof. unfold requests. apply omap_app. Qed.

Lemma requests_pause r : requests (pause_after r) = [].
Proof. destruct r; reflexivity. Qed.

Lemma search_loop_requests queries : forall found_articles (st : state),
  exists evs n,
    log (search_loop requests_get queries found_articles st).2
    = (log st ++ evs)%list
    /\ n <= length queries
    /\ (queries <> [] -> 1 <= n)
    /\ requests evs = mk_params <$> take n queries.
Proof.
  induction queries as [|q rest IH]; intros found st.
  - exists [], 0. cbn. rewrite app_nil_r. repeat split; [lia|congruence].
  - destruct (requests_get (mk_params q) (world st)) as [r w'] eqn:Hget.
    destruct (search_loop_step q rest found st r w' Hget)
      as [(a & ? & ? & ? & -> & _)|[(? & ? & ? & -> & _)|[-> _]]].
    + exists [Get (mk_params q)], 1. cbn. repeat split; lia.
    + exists [Get (mk_params q)], 1. cbn. repeat split; lia.
    + destruct (IH (found ++ option_list (top_result r))%list
                   {| world := w';
                      log := log st ++ Get (mk_params q) :: pause_after r |})
        as (evs & n & -> & Hn & _ & Hreq).
      exists (Get (mk_params q) :: pause_after r ++ evs)%list, (S n).
      cbn [log length take fmap list_fmap]. repeat split; [|lia|lia|].
      * rewrite <- app_assoc. reflexivity.
      * change (Get (mk_params q) :: pause_after r ++ evs)%list
          with ([Get (mk_params q)] ++ pause_after r ++ evs)%list.
        rewrite !requests_app, requests_pause, Hreq. reflexivity.
Qed.

End Service.

Lemma search_queries_cases query_term :
  exists rest,
    search_queries_to_try query_term = query_term :: rest
    /\ length rest <= 2
    /\ NoDup (query_term :: rest)
    /\ Forall (fun v => v <> EmptyString /\ lower v <> lower query_term) rest.
Proof.
  unfold search_queries_to_try.
  set (cleaned := clean_topic_title query_term).
  set (core := replace _ _ _ _).
  assert (Hvariant : forall v queries,
            nonempty v && negb (String.eqb (lower v) (lower query_term))
            && negb (in_list v queries) = true ->
            (v <> EmptyString /\ lower v <> lower query_term) /\ v ∉ queries).
  { intros v queries [[Hne Hlow]%andb_true_iff Hin]%andb_true_iff.
    apply negb_true_iff, String.eqb_neq in Hne, Hlow.
    apply negb_true_iff in Hin. repeat split; [assumption|assumption|].
    intros Hv%KeywordExtractor_more.in_list_spec. congruence. }
  destruct (nonempty cleaned && _ && _) eqn:Hc1;
    destruct (endswith _ _); try destruct (nonempty core && _ && _) eqn:Hc2;
    try apply Hvariant in Hc1 as [Hv1 Hn1];
    try apply Hvariant in Hc2 as [Hv2 Hn2].
  - exists [cleaned; core].
    split; [reflexivity|]. split; [cbn; lia|]. split.
    + apply (NoDup_app [query_term; cleaned] [core]). split; [|split].
      * apply NoDup_cons. split; [|apply NoDup_singleton].
        intros H%list_elem_of_singleton. apply Hn1. rewrite H. apply list_elem_of_here.
      * intros x Hx ->%list_elem_of_singleton. exact (Hn2 Hx).
      * apply NoDup_singleton.
    + constructor; [exact Hv1|]. constructor; [exact Hv2|constructor].
  - exists [cleaned].
    split; [reflexivity|]. split; [cbn; lia|]. split.
    + apply NoDup_cons. split; [|apply NoDup_singleton].
      intros H%list_elem_of_singleton. apply Hn1. rewrite H. apply list_elem_of_here.
    + constructor; [exact Hv1|constructor].
  - exists [cleaned].
    split; [reflexivity|]. split; [cbn; lia|]. split.
    + apply NoDup_cons. split; [|apply NoDup_singleton].
      intros H%list_elem_of_singleton. apply Hn1. rewrite H. apply list_elem_of_here.
    + constructor; [exact Hv1|constructor].
  - exists [core].
    split; [reflexivity|]. split; [cbn; lia|]. split.
    + apply NoDup_cons. split; [|apply NoDup_singleton].
      intros H%list_elem_of_singleton. apply Hn2. rewrite H. apply list_elem_of_here.
    + constructor; [exact Hv2|constructor].
  - exists []. split; [reflexivity|]. split; [cbn; lia|].
    split; [apply NoDup_singleton|constructor].
  - exists []. split; [reflexivity|]. split; [cbn; lia|].
    split; [apply NoDup_singleton|constructor].
Qed.

(** X7: the variants start with the term itself, are at most three, are
    pairwise distinct, and every variant after the first is non-empty and
    differs from the term even up to case. *)
Theorem search_queries_shape (query_term : string) :
  exists rest,
    search_queries_to_try query_term = query_term :: rest
    /\ length (search_queries_to_try query_term) <= 3
    /\ NoDup (search_queries_to_try query_term)
    /\ Forall (fun v => v <> EmptyString /\ lower v <> lower query_term) rest.
Proof.
  destruct (search_queries_cases query_term) as (rest & Heq & Hlen & Hnd & Hv).
  exists rest. rewrite Heq. cbn [length]. repeat split; auto. lia.
Qed.

(** X8: whatever the service answers and however the search ends, the
    requests it makes are those of the variants, in order, one per variant,
    from the first up to the variant at which it ends: at least one request
    and never two for the same variant. *)
Theorem search_requests_follow_variants {W : Type}
    (requests_get : params -> W -> response * W)
    (query_term : string) (st : state) :
  exists evs n,
    log (search_wikipedia_article requests_get query_term st).2
    = (log st ++ evs)%list
    /\ 1 <= n <= length (search_queries_to_try query_term)
    /\ requests evs = mk_params <$> take n (search_queries_to_try query_term).
Proof.
  unfold search_wikipedia_article.
  destruct (search_loop_requests requests_get
              (search_queries_to_try query_term) [] st)
    as (evs & n & Hlog & Hn & Hfirst & Hreq).
  exists evs, n. repeat split; [assumption| |assumption|assumption].
  apply Hfirst. destruct (SearchClient_facts.search_queries_head query_term)
    as [rest ->]. discriminate.
Qed.

End SearchClient_more.

Module SearchClient_outcomes.

Import Py Source_gen Source_gen_spec Coverage_spec SearchClient_more.

Section Service.

Context {W : Type}.
Variable requests_get : params -> W -> response * W.

Lemma replies_cons q rest (w : W) r w' :
  requests_get (mk_params q) w = (r, w') ->
  replies requests_get (q :: rest) w = (q, r) :: replies requests_get rest w'.
Proof. intros H. cbn. now rewrite H. Qed.

(** A turn whose answer holds no strong match and follows the interface goes
    on to the next variant. *)
Lemma search_loop_weak_step q rest found_articles (st : state) r w' :
  requests_get (mk_params q) (world st) = (r, w') ->
  weak_only (q, r) ->
  search_loop requests_get (q :: rest) found_articles st
  = search_loop requests_get rest
      (found_articles ++ option_list (top_result r))
      {| world := w'; log := log st ++ Get (mk_params q) :: pause_after r |}.
Proof.
  intros Hget [Haligned Hweak].
  destruct (search_loop_step requests_get q rest found_articles st r w' Hget)
    as [(a & titles & urls & j & _ & -> & Ht & _ & Hs & _)
       |[(titles & urls & j & _ & -> & Hj & Hu & _)|[Hgo _]]].
  - cbn in Hweak. rewrite Forall_forall in Hweak.
    apply list_elem_of_lookup_2 in Ht. apply Hweak in Ht. congruence.
  - cbn in Haligned. apply lookup_ge_None in Hu. lia.
  - exact Hgo.
Qed.

Lemma search_loop_all_fail queries : forall found_articles (st : state),
  Forall (fun qr => qr.2 = RequestException)
    (replies requests_get queries (world st)) ->
  exists w',
    search_loop requests_get queries found_articles st
    = (Ok (head found_articles),
       {| world := w';
          log := log st ++ ((fun v => Get (mk_params v)) <$> queries) |}).
Proof.
  induction queries as [|q rest IH]; intros found st Hfail.
  - exists (world st). cbn. rewrite app_nil_r. by destruct st.
  - destruct (requests_get (mk_params q) (world st)) as [r w'] eqn:Hget.
    rewrite (replies_cons _ _ _ _ _ Hget) in Hfail.
    inversion Hfail as [|? ? Hr Hrest]; subst. cbn in Hr. subst r.
    rewrite (search_loop_weak_step q rest found st _ w' Hget);
      [|split; exact I].
    cbn [top_result option_list pause_after]. rewrite app_nil_r.
    destruct (IH found {| world := w';
                          log := log st ++ [Get (mk_params q)] |})
      as [w'' ->]; [exact Hrest|].
    exists w''. cbn [log world fmap list_fmap]. now rewrite <- app_assoc.
Qed.

Lemma first_strong_index q (titles1 titles2 : list string) t x j :
  Forall (weak q) titles1 ->
  strong_match q t = true ->
  (titles1 ++ t :: titles2)%list !! j = Some x ->
  strong_match q x = true ->
  Forall (weak q) (take j (titles1 ++ t :: titles2)%list) ->
  j = length titles1 /\ x = t.
Proof.
  intros Hw1 Ht Hx Hsx Hwj.
  destruct (Nat.lt_trichotomy j (length titles1)) as [Hlt|[->|Hgt]].
  - rewrite lookup_app_l in Hx by assumption.
    apply list_elem_of_lookup_2 in Hx. rewrite Forall_forall in Hw1.
    apply Hw1 in Hx. unfold weak in Hx. congruence.
  - rewrite list_lookup_middle in Hx by reflexivity. split; congruence.
  - rewrite Forall_forall in Hwj.
    assert (Hin : t ∈ take j (titles1 ++ t :: titles2)%list).
    { apply list_elem_of_lookup. exists (length titles1).
      rewrite lookup_take_lt by lia. now apply list_lookup_middle. }
    apply Hwj in Hin. unfold weak in Hin. congruence.
Qed.

Lemma search_loop_strong v titles1 t titles2 urls u rs2 rs1 :
  forall queries found_articles (st : state),
  replies requests_get queries (world st)
  = (rs1 ++ (v, OpenSearch (titles1 ++ t :: titles2) urls) :: rs2)%list ->
  Forall weak_only rs1 ->
  Forall (weak v) titles1 ->
  urls !! length titles1 = Some u ->
  strong_match v t = true ->
  exists st',
    search_loop requests_get queries found_articles st
    = (Ok (Some {| found_title := t; found_url := u |}), st').
Proof.
  induction rs1 as [|r1 rs1 IH]; intros queries found st Hreplies Hweak1 Hw Hu Ht;
    (destruct queries as [|q rest]; [discriminate|]);
    destruct (requests_get (mk_params q) (world st)) as [r w'] eqn:Hget;
    rewrite (replies_cons _ _ _ _ _ Hget) in Hreplies.
  - injection Hreplies as -> -> Hrest.
    destruct (search_loop_step requests_get v rest found st _ w' Hget)
      as [(a & titles & urls' & j & Hrun & [= <- <-] & Hlook & Hurl & Hs & Hwj)
         |[(titles & urls' & j & _ & [= <- <-] & Hj & Hnone & Hwj)
          |[_ [_ Hall]]]].
    + destruct (first_strong_index v titles1 titles2 t _ j Hw Ht Hlook Hs Hwj)
        as [-> Heq].
      rewrite Hrun. destruct a as [ft fu]. cbn in *.
      eexists. repeat f_equal; congruence.
    + exfalso. apply lookup_ge_None in Hnone. apply lookup_lt_Some in Hu.
      rewrite Forall_forall in Hwj.
      assert (Hin : t ∈ take j (titles1 ++ t :: titles2)%list).
      { apply list_elem_of_lookup. exists (length titles1).
        rewrite lookup_take_lt by lia. now apply list_lookup_middle. }
      apply Hwj in Hin. unfold weak in Hin. congruence.
    + exfalso. cbn in Hall. rewrite Forall_forall in Hall.
      assert (Hin : t ∈ (titles1 ++ t :: titles2)%list) by set_solver.
      apply Hall in Hin. congruence.
  - injection Hreplies as <- Hrest.
    inversion Hweak1 as [|? ? Hq Hweak1']; subst.
    rewrite (search_loop_weak_step q rest found st r w' Hget Hq).
    apply IH; assumption.
Qed.

Lemma search_loop_answered queries : forall found_articles (st st' : state) a,
  search_loop requests_get queries found_articles st = (Ok (Some a), st') ->
  a ∈ found_articles
  \/ answered a (replies requests_get queries (world st)).
Proof.
  induction queries as [|q rest IH]; intros found st st' a.
  - cbn. intros [= Hhead _]. left. by apply head_Some_elem_of.
  - destruct (requests_get (mk_params q) (world st)) as [r w'] eqn:Hget.
    rewrite (replies_cons _ _ _ _ _ Hget).
    destruct (search_loop_step requests_get q rest found st r w' Hget)
      as [(a0 & titles & urls & j & -> & -> & Ht & Hu & _)
         |[(titles & urls & j & -> & _)|[-> _]]].
    + intros [= <- _]. right. exists q, titles, urls, j.
      split; [apply list_elem_of_here|auto].
    + discriminate.
    + intros [[Hin|Hin]%elem_of_app|Hans]%IH.
      * by left.
      * right. destruct r as [| |[|title titles] [|url urls]];
          try (by inversion Hin).
        apply list_elem_of_singleton in Hin as ->.
        exists q, (title :: titles), (url :: urls), 0.
        split; [apply list_elem_of_here|auto].
      * right. destruct Hans as (v & titles & urls & i & Hin & Hi).
        exists v, titles, urls, i. split; [by right|exact Hi].
Qed.

End Service.

(** X9: when every request fails, the search returns [None] and does not
    raise; each variant was requested once, in order, and no pause was
    made between the requests. *)
Theorem search_all_requests_fail {W : Type}
    (requests_get : params -> W -> response * W)
    (query_term : string) (st : state) :
  Forall (fun qr => qr.2 = RequestException)
    (replies requests_get (search_queries_to_try query_term) (world st)) ->
  exists w',
    search_wikipedia_article requests_get query_term st
    = (Ok None,
       {| world := w';
          log := log st ++ ((fun v => Get (mk_params v))
                              <$> search_queries_to_try query_term) |}).
Proof.
  intros Hfail. unfold search_wikipedia_article.
  apply (search_loop_all_fail requests_get _ [] st Hfail).
Qed.

Lemma graphs_replies :
  replies down (search_queries_to_try "Introduction to Graphs") (world start)
  = [ ("Introduction to Graphs", RequestException);
      ("Graph", RequestException) ].
Proof. vm_compute. reflexivity. Qed.

Lemma search_all_requests_fail_witness :
  exists w',
    search_wikipedia_article down "Introduction to Graphs" start
    = (Ok None,
       {| world := w';
          log := [Get (mk_params "Introduction to Graphs");
                  Get (mk_params "Graph")] |}).
Proof.
  apply (search_all_requests_fail down "Introduction to Graphs" start).
  rewrite graphs_replies.
  constructor; [reflexivity|]. constructor; [reflexivity|constructor].
Defined.

(** X10: a strong match (equality or containment, up to case) is returned
    wherever it stands, at any rank of any variant, provided no title before
    it in that answer is a strong match and the earlier variants got answers
    without strong match: the fallbacks collected so far are passed over. *)
Theorem search_prefers_strong_match {W : Type}
    (requests_get : params -> W -> response * W)
    (query_term : string) (st : state)
    (rs1 rs2 : list (string * response)) (v t u : string)
    (titles1 titles2 urls : list string) :
  replies requests_get (search_queries_to_try query_term) (world st)
  = (rs1 ++ (v, OpenSearch (titles1 ++ t :: titles2) urls) :: rs2)%list ->
  Forall weak_only rs1 ->
  Forall (fun x => strong_match v x = false) titles1 ->
  urls !! length titles1 = Some u ->
  strong_match v t = true ->
  exists st',
    search_wikipedia_article requests_get query_term st
    = (Ok (Some {| found_title := t; found_url := u |}), st').
Proof.
  intros Hreplies Hweak Hw Hu Ht. unfold search_wikipedia_article.
  eapply search_loop_strong; eassumption.
Qed.

Lemma ring_theory_replies :
  replies ranked_second (search_queries_to_try "Ring Theory") (world start)
  = [ ("Ring Theory",
       OpenSearch ["Group (mathematics)"; "Ring theory"]
                  ["https://en.wikipedia.org/wiki/Group_(mathematics)";
                   "https://en.wikipedia.org/wiki/Ring_theory"]);
      ("Ring",
       OpenSearch ["Group (mathematics)"; "Ring theory"]
                  ["https://en.wikipedia.org/wiki/Group_(mathematics)";
                   "https://en.wikipedia.org/wiki/Ring_theory"]) ].
Proof. vm_compute. reflexivity. Qed.

Lemma search_prefers_strong_match_witness :
  exists st',
    search_wikipedia_article ranked_second "Ring Theory" start
    = (Ok (Some {| found_title := "Ring theory";
                   found_url := "https://en.wikipedia.org/wiki/Ring_theory" |}),
       st').
Proof.
  eapply (search_prefers_strong_match ranked_second "Ring Theory" start []
            _ "Ring Theory" "Ring theory" _ ["Group (mathematics)"] []).
  - rewrite ring_theory_replies. reflexivity.
  - constructor.
  - constructor; [vm_compute; reflexivity|constructor].
  - reflexivity.
  - vm_compute; reflexivity.
Defined.

(** X11: an article that is returned stands in one of the answers to the
    variants, its title and its url at one and the same index: the search
    makes up no result and pairs no title with the url of another. *)
Theorem search_result_answered {W : Type}
    (requests_get : params -> W -> response * W)
    (query_term : string) (st st' : state) (a : article) :
  search_wikipedia_article requests_get query_term st = (Ok (Some a), st') ->
  answered a
    (replies requests_get (search_queries_to_try query_term) (world st)).
Proof.
  unfold search_wikipedia_article.
  intros [Hin|Hans]%search_loop_answered; [inversion Hin|exact Hans].
Qed.

Lemma search_result_answered_witness :
  answered {| found_title := "Matrix (mathematics)";
              found_url := "https://en.wikipedia.org/wiki/Matrix_(mathematics)" |}
    (replies service (search_queries_to_try "matrices") (world start)).
Proof.
  eapply (search_result_answered service "matrices" start).
  vm_compute. reflexivity.
Defined.

(** X12: a title without url is not a failed request.  When the answer to the
    term has fewer urls than titles and no strong match among the titles that
    have one, the search raises [IndexError] after its first request. *)
Theorem search_misaligned_raises {W : Type}
    (requests_get : params -> W -> response * W)
    (query_term : string) (st : state)
    (titles urls : list string) (w' : W) :
  requests_get (mk_params query_term) (world st)
  = (OpenSearch titles urls, w') ->
  length urls < length titles ->
  Forall (fun x => strong_match query_term x = false)
    (take (length urls) titles) ->
  search_wikipedia_article requests_get query_term st
  = (Raise IndexError,
     {| world := w'; log := log st ++ [Get (mk_params query_term)] |}).
Proof.
  intros Hget Hlen Hweak. unfold search_wikipedia_article.
  destruct (SearchClient_facts.search_queries_head query_term) as [rest ->].
  destruct (search_loop_step requests_get query_term rest [] st _ w' Hget)
    as [(a & titles' & urls' & j & _ & [= <- <-] & Ht & Hu & Hs & _)
       |[(titles' & urls' & j & Hrun & _)|[_ [Haligned _]]]].
  - exfalso. apply lookup_lt_Some in Hu. rewrite Forall_forall in Hweak.
    assert (Hin : found_title a ∈ take (length urls) titles).
    { apply list_elem_of_lookup. exists j. now rewrite lookup_take_lt. }
    apply Hweak in Hin. congruence.
  - exact Hrun.
  - cbn in Haligned. lia.
Qed.

Lemma search_misaligned_raises_witness :
  search_wikipedia_article misaligned "matrices" start
  = (Raise IndexError,
     {| world := 1; log := [Get (mk_params "matrices")] |}).
Proof.
  apply (search_misaligned_raises misaligned "matrices" start
           ["Matrix (mathematics)"; "Matrix decomposition"]
           ["https://en.wikipedia.org/wiki/Matrix_(mathematics)"] 1).
  - reflexivity.
  - cbn. lia.
  - constructor; [vm_compute; reflexivity|constructor].
Defined.

End SearchClient_outcomes.

Module SearchClient_variants.

Import Py Source_gen Source_gen_spec Coverage_spec Text_facts.

#[local] Arguments String.append : simpl nomatch.

Lemma endswith_append a p : endswith (a ++ p) p = true.
Proof.
  unfold endswith. rewrite len_append.
  replace (len a + len p - len p) with (len a) by lia.
  rewrite drop_append, String.eqb_refl.
  apply andb_true_iff. split; [apply Nat.leb_le; lia|reflexivity].
Qed.

(** Where the text before [rest] holds no occurrence of the first character
    of [old], [replace] leaves that text as it is. *)
Lemma replace_from_absent x old new count base rest :
  has_char x base = false ->
  replace_from (String x old) new count 0 (base ++ rest)
  = base ++ replace_from (String x old) new count 0 rest.
Proof.
  induction base as [|c base IH]; [reflexivity|].
  cbn [has_char]. intros [Hc Hbase]%orb_false_iff.
  cbn [append replace_from startswith].
  rewrite Ascii.eqb_sym, Hc. cbn [andb]. rewrite andb_false_r.
  f_equal. apply IH, Hbase.
Qed.

Lemma replace_absent x old new count base :
  has_char x base = false ->
  replace base (String x old) new count = base.
Proof.
  intros H. unfold replace. rewrite <- (append_nil_r base) at 1.
  rewrite (replace_from_absent _ _ _ _ _ _ H). cbn. apply append_nil_r.
Qed.

(** X13: for a term made of a text without space followed by " Theory" or
    " theory", that text, the core concept, is among the variants. *)
Theorem search_queries_core_concept (base suffix : string) :
  has_char " " base = false ->
  base <> EmptyString ->
  suffix = " Theory" \/ suffix = " theory" ->
  base ∈ search_queries_to_try (base ++ suffix).
Proof.
  intros Hspace Hbase Hsuffix. unfold search_queries_to_try. cbv zeta.
  match goal with
  | |- _ ∈ (if _ then _ else ?other) => set (queries := other)
  end.
  assert (Hends : endswith (lower (base ++ suffix)) " theory" = true).
  { rewrite lower_append.
    destruct Hsuffix as [-> | ->]; apply (endswith_append _ " theory"). }
  assert (Hcore : replace (replace (base ++ suffix) " Theory" EmptyString
                             (Some 1))
                    " theory" EmptyString (Some 1) = base).
  { destruct Hsuffix as [-> | ->]; unfold replace at 2.
    - rewrite (replace_from_absent _ _ _ _ _ _ Hspace).
      change (replace_from " Theory" EmptyString (Some 1) 0 " Theory")
        with EmptyString.
      rewrite append_nil_r. apply replace_absent, Hspace.
    - rewrite (replace_from_absent _ _ _ _ _ _ Hspace).
      change (replace_from " Theory" EmptyString (Some 1) 0 " theory")
        with " theory".
      unfold replace. rewrite (replace_from_absent _ _ _ _ _ _ Hspace).
      change (replace_from " theory" EmptyString (Some 1) 0 " theory")
        with EmptyString.
      apply append_nil_r. }
  rewrite Hends, Hcore.
  assert (Hne : nonempty base = true).
  { unfold nonempty. apply negb_true_iff, String.eqb_neq, Hbase. }
  assert (Hlow : String.eqb (lower base) (lower (base ++ suffix)) = false).
  { apply String.eqb_neq. intros Heq.
    apply (f_equal len) in Heq. rewrite !len_lower, len_append in Heq.
    destruct Hsuffix as [-> | ->]; cbn in Heq; lia. }
  rewrite Hne, Hlow. cbn [negb andb].
  destruct (in_list base queries) eqn:Hin; cbn [negb].
  - by apply KeywordExtractor_more.in_list_spec.
  - apply elem_of_app. right. apply list_elem_of_here.
Qed.

Lemma search_queries_core_concept_witness :
  "Game" ∈ search_queries_to_try ("Game" ++ " theory").
Proof.
  apply (search_queries_core_concept "Game" " theory").
  - reflexivity.
  - discriminate.
  - right. reflexivity.
Defined.

End SearchClient_variants.

(** ** EvidenceLinker, continued *)

Module EvidenceLinker_more.

Import Py Source_gen Source_gen_spec Coverage_spec SearchClient_more.

Lemma add_source_cases info score context acc :
  exists new,
    (add_source info score context acc).1 = (acc.1 ++ new)%list
    /\ length new <= 1
    /\ Forall (fun s => wikipedia s /\ relevance_score s = score
                        /\ context_for_topic s = context) new.
Proof.
  destruct acc as [sources seen_urls]. destruct info as [a|]; cbn.
  - case_decide; cbn.
    + eexists [_]. split; [reflexivity|]. split; [cbn; lia|].
      constructor; [|constructor]. repeat split.
    + exists []. rewrite app_nil_r. repeat split; [cbn; lia|constructor].
  - exists []. rewrite app_nil_r. repeat split; [cbn; lia|constructor].
Qed.

Section Service.

Context {W : Type}.
Variable requests_get : params -> W -> response * W.
Variable list_of_set : list string -> list string.

Lemma sub_topic_loop_shape sub_topics : forall acc (st : state) acc' st',
  sub_topic_loop requests_get sub_topics acc st = (Ok acc', st') ->
  exists subs,
    acc'.1 = (acc.1 ++ subs)%list
    /\ Forall (fun s => wikipedia s /\ secondary s) subs
    /\ sublist (context_for_topic <$> subs) sub_topics.
Proof.
  induction sub_topics as [|sub_topic rest IH]; intros acc st acc' st'.
  - cbn. intros [= <- _]. exists []. rewrite app_nil_r.
    repeat split; constructor.
  - cbn [sub_topic_loop]. unfold mbind, M_bind, bind.
    destruct (search_wikipedia_article requests_get sub_topic st)
      as [[info|e] st1]; [|discriminate].
    intros (subs & -> & Hsubs & Hctx)%IH.
    destruct (add_source_cases info (8 # 10)%Q sub_topic acc)
      as (new & -> & Hlen & Hnew).
    exists (new ++ subs)%list. split; [now rewrite app_assoc|]. split.
    + apply Forall_app. split; [|exact Hsubs].
      eapply Forall_impl; [exact Hnew|]. intros s (? & ? & ?). by split.
    + rewrite fmap_app. destruct new as [|s [|? ?]]; [| |cbn in Hlen; lia].
      * by apply sublist_cons.
      * apply Forall_cons in Hnew as [(_ & _ & Hs) _]. cbn.
        rewrite Hs. by apply sublist_skip.
Qed.

Lemma search_loop_no_results queries :
  (forall p w, no_results (requests_get p w).1) ->
  forall (st : state),
  exists st', search_loop requests_get queries [] st = (Ok None, st').
Proof.
  intros Hnone. induction queries as [|q rest IH]; intros st; [cbn; eauto|].
  pose proof (Hnone (mk_params q) (world st)) as Hr.
  destruct (requests_get (mk_params q) (world st)) as [r w'] eqn:Hget.
  cbn [fst] in Hr.
  rewrite (SearchClient_outcomes.search_loop_weak_step requests_get
             q rest [] st r w' Hget).
  - replace (top_result r) with (@None article).
    + apply IH.
    + destruct r as [| |[|? ?] ?]; try reflexivity. contradiction.
  - destruct r as [| |[|? ?] ?]; try (split; exact I); [|contradiction].
    split; [cbn; lia|constructor].
Qed.

Lemma sub_topic_loop_no_results sub_topics :
  (forall p w, no_results (requests_get p w).1) ->
  forall acc (st : state),
  exists st', sub_topic_loop requests_get sub_topics acc st = (Ok acc, st').
Proof.
  intros Hnone.
  induction sub_topics as [|sub_topic rest IH]; intros acc st; [cbn; eauto|].
  cbn [sub_topic_loop]. unfold mbind, M_bind, bind, search_wikipedia_article.
  destruct (search_loop_no_results (search_queries_to_try sub_topic) Hnone st)
    as [st1 ->].
  destruct acc as [sources seen_urls]. cbn [add_source]. apply IH.
Qed.

Lemma search_bounded_requests query_term (st : state) :
  exists evs,
    log (search_wikipedia_article requests_get query_term st).2
    = (log st ++ evs)%list
    /\ length (requests evs) <= 3.
Proof.
  unfold search_wikipedia_article.
  destruct (search_loop_requests requests_get
              (search_queries_to_try query_term) [] st)
    as (evs & n & Hlog & Hn & _ & Hreq).
  exists evs. split; [exact Hlog|].
  rewrite Hreq, length_fmap, length_take.
  destruct (search_queries_cases query_term) as (rest & Heq & Hlen & _).
  rewrite Heq in *. cbn [length] in *. lia.
Qed.

Lemma sub_topic_loop_bounded_requests sub_topics : forall acc (st : state),
  exists evs,
    log (sub_topic_loop requests_get sub_topics acc st).2
    = (log st ++ evs)%list
    /\ length (requests evs) <= 3 * length sub_topics.
Proof.
  induction sub_topics as [|sub_topic rest IH]; intros acc st.
  - exists []. cbn. rewrite app_nil_r. split; [reflexivity|lia].
  - cbn [sub_topic_loop]. unfold mbind, M_bind, bind.
    destruct (search_bounded_requests sub_topic st) as (evs1 & Hlog1 & Hn1).
    destruct (search_wikipedia_article requests_get sub_topic st)
      as [[info|e] st1]; cbn [snd] in Hlog1.
    + destruct (IH (add_source info (8 # 10)%Q sub_topic acc) st1)
        as (evs2 & -> & Hn2).
      exists (evs1 ++ evs2)%list. rewrite Hlog1, <- app_assoc.
      split; [reflexivity|].
      rewrite requests_app, length_app. cbn [length]. lia.
    + exists evs1. cbn [snd]. split; [exact Hlog1|]. cbn [length]. lia.
Qed.

End Service.

(** X14: the list returned for a topic is made of at most one source for the
    title, scored 0.9 with the title as context, followed by sources scored
    0.8 whose contexts are keywords of the description, in the order these
    were searched and each at most once; all are typed as Wikipedia
    articles.  So there are at most one more sources than keywords. *)
Theorem generate_sources_shape {W : Type}
    (requests_get : params -> W -> response * W)
    (list_of_set : list string -> list string)
    (topic_data : gmap string string) (st st' : state)
    (sources : list source) (topic_title topic_description : string) :
  topic_data !! "title" = Some topic_title ->
  topic_data !! "description" = Some topic_description ->
  generate_sources_for_topic requests_get list_of_set topic_data st
  = (Ok sources, st') ->
  exists main subs,
    sources = (main ++ subs)%list
    /\ length main <= 1
    /\ Forall (primary topic_title) main
    /\ Forall secondary subs
    /\ sublist (context_for_topic <$> subs)
         (extract_keywords_from_description list_of_set topic_description)
    /\ Forall wikipedia sources.
Proof.
  intros Ht Hd.
  unfold generate_sources_for_topic, getitem, mbind, M_bind, bind.
  rewrite Ht, Hd. cbn -[add_source].
  destruct (search_wikipedia_article requests_get topic_title st)
    as [[wiki_info|e] st1]; [|discriminate].
  destruct (add_source_cases wiki_info (9 # 10)%Q topic_title ([], ∅))
    as (main & Hmain & Hlen & Hprimary).
  cbn [fst app] in Hmain.
  assert (Hmain' : Forall (primary topic_title) main /\ Forall wikipedia main).
  { split; (eapply Forall_impl; [exact Hprimary|]);
      intros s (? & ? & ?); [by split|assumption]. }
  destruct Hmain' as [Hp Hw].
  destruct (nonempty topic_description).
  - destruct (sub_topic_loop requests_get _ _ st1) as [[acc'|e] st2] eqn:Hloop;
      [|discriminate].
    intros [= <- _].
    apply sub_topic_loop_shape in Hloop as (subs & -> & Hsubs & Hctx).
    exists main, subs. rewrite Hmain.
    repeat split; try assumption.
    + eapply Forall_impl; [exact Hsubs|]. by intros s [_ ?].
    + apply Forall_app. split; [exact Hw|].
      eapply Forall_impl; [exact Hsubs|]. by intros s [? _].
  - intros [= <- _]. exists main, []. rewrite app_nil_r.
    split; [exact Hmain|]. split; [exact Hlen|]. split; [exact Hp|].
    split; [constructor|]. split; [apply sublist_nil_l|].
    subst main. exact Hw.
Qed.

Lemma generate_sources_shape_witness :
  exists sources st' main subs,
    generate_sources_for_topic service remove_dups linear_algebra start
    = (Ok sources, st')
    /\ sources = (main ++ subs)%list
    /\ length main <= 1
    /\ Forall (primary "Linear Algebra") main
    /\ Forall secondary subs
    /\ sublist (context_for_topic <$> subs)
         (extract_keywords_from_description remove_dups
            "Linear algebra, matrices, and Linear Algebra")
    /\ Forall wikipedia sources.
Proof.
  eexists _, _.
  assert (Hrun : generate_sources_for_topic service remove_dups linear_algebra
                   start = (Ok _, _)) by (vm_compute; reflexivity).
  destruct (generate_sources_shape service remove_dups linear_algebra start _ _
              "Linear Algebra" "Linear algebra, matrices, and Linear Algebra"
              eq_refl eq_refl Hrun) as (main & subs & Hshape).
  exists main, subs. split; [exact Hrun|exact Hshape].
Defined.

(** X15: when no request brings a result (failures, short bodies, empty
    lists of titles), the topic gets the empty list of sources; that is no
    error. *)
Theorem generate_sources_nothing_found {W : Type}
    (requests_get : params -> W -> response * W)
    (list_of_set : list string -> list string)
    (topic_data : gmap string string) (st : state) :
  is_Some (topic_data !! "title") ->
  is_Some (topic_data !! "description") ->
  (forall p w, no_results (requests_get p w).1) ->
  exists st',
    generate_sources_for_topic requests_get list_of_set topic_data st
    = (Ok [], st').
Proof.
  intros [topic_title Ht] [topic_description Hd] Hnone.
  unfold generate_sources_for_topic, getitem, mbind, M_bind, bind.
  rewrite Ht, Hd. cbn. unfold search_wikipedia_article.
  destruct (search_loop_no_results requests_get
              (search_queries_to_try topic_title) Hnone st) as [st1 ->].
  cbn [add_source]. destruct (nonempty topic_description); [|eauto].
  destruct (sub_topic_loop_no_results requests_get
              (extract_keywords_from_description list_of_set topic_description)
              Hnone ([], ∅) st1) as [st2 ->].
  eauto.
Qed.

Lemma generate_sources_nothing_found_witness :
  exists st',
    generate_sources_for_topic barren remove_dups linear_algebra start
    = (Ok [], st').
Proof.
  apply (generate_sources_nothing_found barren remove_dups linear_algebra
           start).
  - by eexists.
  - by eexists.
  - intros p w. exact I.
Defined.

(** X16: for one topic at most three requests are made for the title and at
    most three for each keyword of the description, whatever the service
    answers and however the run ends. *)
Theorem generate_sources_bounded_requests {W : Type}
    (requests_get : params -> W -> response * W)
    (list_of_set : list string -> list string)
    (topic_data : gmap string string) (st : state)
    (topic_description : string) :
  topic_data !! "description" = Some topic_description ->
  exists evs,
    log (generate_sources_for_topic requests_get list_of_set topic_data st).2
    = (log st ++ evs)%list
    /\ length (requests evs)
       <= 3 * (1 + length (extract_keywords_from_description list_of_set
                             topic_description)).
Proof.
  intros Hd.
  unfold generate_sources_for_topic, getitem, mbind, M_bind, bind.
  rewrite Hd. destruct (topic_data !! "title") as [topic_title|]; cbn.
  - destruct (search_bounded_requests requests_get topic_title st)
      as (evs1 & Hlog1 & Hn1).
    destruct (search_wikipedia_article requests_get topic_title st)
      as [[wiki_info|e] st1]; cbn [snd] in Hlog1.
    + destruct (nonempty topic_description).
      * match goal with
        | |- context [sub_topic_loop _ ?ks ?acc st1] =>
            destruct (sub_topic_loop_bounded_requests requests_get ks acc st1)
              as (evs2 & Hlog2 & Hn2);
            destruct (sub_topic_loop requests_get ks acc st1)
              as [[acc'|e] st2]
        end; cbn [snd] in Hlog2; cbn;
          (exists (evs1 ++ evs2)%list; rewrite Hlog2, Hlog1, <- app_assoc;
           split; [reflexivity|]; rewrite requests_app, length_app; lia).
      * exists evs1. cbn [snd]. split; [exact Hlog1|lia].
    + exists evs1. cbn [snd]. split; [exact Hlog1|lia].
  - exists []. rewrite app_nil_r. split; [reflexivity|cbn; lia].
Qed.

Lemma generate_sources_bounded_requests_witness :
  exists evs,
    log (generate_sources_for_topic service remove_dups linear_algebra start).2
    = (log start ++ evs)%list
    /\ length (requests evs)
       <= 3 * (1 + length (extract_keywords_from_description remove_dups
                             "Linear algebra, matrices, and Linear Algebra")).
Proof.
  apply (generate_sources_bounded_requests service remove_dups linear_algebra
           start).
  reflexivity.
Defined.

End EvidenceLinker_more.

Module EvidenceLinker_returns.

Import Py Source_gen Source_gen_spec Coverage_spec.

Lemma service_aligned p w : aligned (service p w).1.
Proof.
  unfold service. cbn [fst].
  repeat match goal with
         | |- context [if ?b then _ else _] => destruct b
         end; cbn; lia.
Qed.

(** The witness of X17 ([EvidenceLinker_facts.generate_sources_returns]: with
    both keys and a service that gives a url for every title, the function
    returns a list and raises nothing). *)
Lemma generate_sources_returns_witness :
  exists sources st',
    generate_sources_for_topic service remove_dups linear_algebra start
    = (Ok sources, st').
Proof.
  apply (EvidenceLinker_facts.generate_sources_returns service remove_dups
           linear_algebra start).
  - by eexists.
  - by eexists.
  - apply service_aligned.
Defined.

End EvidenceLinker_returns.

(** ** GoalDecomposer, continued *)

Module GoalDecomposer_more.

Import Py topicCreate topicCreate_spec Coverage_spec Text_facts.

#[local] Arguments String.append : simpl nomatch.

Lemma rstrip_keeps P t :
  rstrip_with P t = t -> t <> EmptyString ->
  forall s, rstrip_with P (s ++ t) = s ++ t.
Proof.
  intros Ht Hne. induction s as [|c s IH]; [exact Ht|].
  cbn [append rstrip_with]. rewrite IH.
  destruct (s ++ t) eqn:Hst; [|reflexivity].
  destruct s; cbn in Hst; [contradiction|discriminate].
Qed.

Lemma replace_from_skip old new count p rest :
  replace_from old new count (len p) (p ++ rest)
  = replace_from old new count 0 rest.
Proof.
  induction p as [|c p IH]; [reflexivity|].
  cbn [len String.length append replace_from]. exact IH.
Qed.

(** An occurrence at the very start is replaced, and the scan goes on behind
    it. *)
Lemma replace_from_start x old new rest :
  replace_from (String x old) new None 0 (String x old ++ rest)
  = new ++ replace_from (String x old) new None 0 rest.
Proof.
  cbn [append replace_from startswith]. rewrite Ascii.eqb_refl.
  rewrite startswith_append. cbn [andb fmap option_fmap option_map].
  f_equal. cbn [len String.length].
  replace (S (String.length old) - 1) with (len old)
    by (unfold len; lia).
  apply replace_from_skip.
Qed.

(** In a body without backtick the closing fence is found at the end only. *)
Lemma replace_closing_fence body :
  has_char "`" body = false ->
  replace_from (nl ++ fence) EmptyString None 0 (body ++ nl ++ fence) = body.
Proof.
  induction body as [|c body IH]; [reflexivity|].
  cbn [has_char]. intros [Hc Hbody]%orb_false_iff.
  change (nl ++ fence) with (String (ascii_of_nat 10) fence) in *.
  cbn [append replace_from startswith andb].
  assert (Hno : Ascii.eqb (ascii_of_nat 10) c
                && startswith (body ++ String (ascii_of_nat 10) fence) fence
                = false).
  { destruct (Ascii.eqb (ascii_of_nat 10) c); [|reflexivity].
    destruct body as [|d body]; [reflexivity|].
    cbn [has_char] in Hbody. apply orb_false_iff in Hbody as [Hd _].
    unfold fence. cbn [append startswith].
    now rewrite Ascii.eqb_sym, Hd. }
  rewrite Hno. f_equal. apply IH, Hbody.
Qed.

Lemma strip_fenced tag body :
  strip (fence ++ tag ++ nl ++ body ++ nl ++ fence)
  = fence ++ tag ++ nl ++ body ++ nl ++ fence.
Proof.
  unfold strip.
  change (lstrip_with isspace (fence ++ tag ++ nl ++ body ++ nl ++ fence))
    with (fence ++ tag ++ nl ++ body ++ nl ++ fence).
  rewrite <- !append_assoc.
  apply rstrip_keeps; [reflexivity|discriminate].
Qed.

Lemma strip_fences_fenced tag body :
  tag = "json" \/ tag = EmptyString ->
  has_char "`" body = false ->
  strip_fences (fence ++ tag ++ nl ++ body ++ nl ++ fence) = body.
Proof.
  intros Htag Hbody. unfold strip_fences, replace.
  destruct Htag as [-> | ->].
  - change (startswith _ (fence ++ "json")) with true. cbv iota.
    change (fence ++ "json" ++ nl ++ body ++ nl ++ fence)
      with (String "`" ("``json" ++ nl) ++ body ++ nl ++ fence).
    change (fence ++ "json" ++ nl) with (String "`" ("``json" ++ nl)).
    rewrite replace_from_start.
    rewrite (SearchClient_variants.replace_from_absent _ _ _ _ _ _ Hbody).
    change (replace_from (String "`" ("``json" ++ nl)) EmptyString None 0
              (nl ++ fence)) with (nl ++ fence).
    apply replace_closing_fence, Hbody.
  - change (startswith _ (fence ++ "json")) with false.
    change (startswith _ fence) with true. cbv iota.
    change (fence ++ EmptyString ++ nl ++ body ++ nl ++ fence)
      with (String "`" ("``" ++ nl) ++ body ++ nl ++ fence).
    change (fence ++ nl) with (String "`" ("``" ++ nl)).
    rewrite replace_from_start.
    rewrite (SearchClient_variants.replace_from_absent _ _ _ _ _ _ Hbody).
    change (replace_from (String "`" ("``" ++ nl)) EmptyString None 0
              (nl ++ fence)) with (nl ++ fence).
    apply replace_closing_fence, Hbody.
Qed.

Lemma lstrip_blank lead s :
  blank lead = true ->
  lstrip_with isspace (lead ++ s) = lstrip_with isspace s.
Proof.
  induction lead as [|c lead IH]; [reflexivity|].
  cbn [blank]. intros [Hc Hlead]%andb_true_iff.
  cbn [append lstrip_with]. rewrite Hc. apply IH, Hlead.
Qed.

Lemma rstrip_blank_all trail :
  blank trail = true -> rstrip_with isspace trail = EmptyString.
Proof.
  induction trail as [|c trail IH]; [reflexivity|].
  cbn [blank]. intros [Hc Htrail]%andb_true_iff.
  cbn [rstrip_with]. now rewrite (IH Htrail), Hc.
Qed.

Lemma rstrip_blank s trail :
  blank trail = true ->
  rstrip_with isspace (s ++ trail) = rstrip_with isspace s.
Proof.
  intros Htrail. induction s as [|c s IH].
  - cbn [append]. now apply rstrip_blank_all.
  - cbn [append rstrip_with]. now rewrite IH.
Qed.

Lemma strip_padded lead tag body trail :
  blank lead = true -> blank trail = true ->
  strip (lead ++ (fence ++ tag ++ nl ++ body ++ nl ++ fence) ++ trail)
  = fence ++ tag ++ nl ++ body ++ nl ++ fence.
Proof.
  intros Hlead Htrail. unfold strip.
  rewrite (lstrip_blank _ _ Hlead).
  change (lstrip_with isspace
            ((fence ++ tag ++ nl ++ body ++ nl ++ fence) ++ trail))
    with ((fence ++ tag ++ nl ++ body ++ nl ++ fence) ++ trail).
  rewrite (rstrip_blank _ _ Htrail).
  apply (strip_fenced tag body).
Qed.

(** X18: a JSON text without backtick that the collaborator wraps in a code
    fence, tagged json or untagged, with white space around the fences or
    not, is unwrapped and parsed: the function returns what [json.loads]
    makes of the text inside. *)
Theorem generate_learning_roadmap_unwraps_fence {W : Type}
    (generate_content : string -> W -> (exn + string) * W)
    (json_loads : string -> option value)
    (learning_goal lead tag body trail : string) (topics : value)
    (w w' : W) :
  generate_content (prompt learning_goal) w
  = (inr (lead ++ (fence ++ tag ++ nl ++ body ++ nl ++ fence) ++ trail), w') ->
  blank lead = true -> blank trail = true ->
  tag = "json" \/ tag = EmptyString ->
  has_char "`" body = false ->
  json_loads body = Some topics ->
  generate_learning_roadmap generate_content json_loads learning_goal w
  = (Ok topics, w').
Proof.
  intros Hask Hlead Htrail Htag Hbody Hloads.
  unfold generate_learning_roadmap, try_except, mbind, M_bind, bind, ask, loads.
  rewrite Hask, (strip_padded _ _ _ _ Hlead Htrail).
  rewrite (strip_fences_fenced _ _ Htag Hbody), Hloads. reflexivity.
Qed.

Lemma generate_learning_roadmap_unwraps_fence_witness :
  generate_learning_roadmap fenced loads_empty_array "Learn Web Development" 0
  = (Ok (List []), 1).
Proof.
  apply (generate_learning_roadmap_unwraps_fence fenced loads_empty_array
           "Learn Web Development" EmptyString "json" "[]" nl (List []) 0 1).
  - reflexivity.
  - reflexivity.
  - reflexivity.
  - left. reflexivity.
  - reflexivity.
  - reflexivity.
Defined.

End GoalDecomposer_more.

(** ** SearchClient: relevance and pauses *)

Module SearchClient_relevance.

Import Py Source_gen Source_gen_spec Coverage_spec Text_facts SearchClient_more.

Lemma contains_nil s : contains s EmptyString = true.
Proof. destruct s; reflexivity. Qed.

(** X19: the relevance test does not tell the term from the title: it gives
    the same verdict when the two are swapped; and an empty title, like an
    empty term, is a strong match for anything. *)
Theorem strong_match_symmetric (current_search_term title : string) :
  strong_match current_search_term title
  = strong_match title current_search_term
  /\ strong_match current_search_term EmptyString = true
  /\ strong_match EmptyString title = true.
Proof.
  unfold strong_match. cbn [lower]. rewrite !contains_nil.
  repeat split.
  - rewrite String.eqb_sym, <- !orb_assoc. f_equal. apply orb_comm.
  - now rewrite orb_true_r.
  - now rewrite orb_true_r.
Qed.

Lemma pauses_app evs1 evs2 : pauses (evs1 ++ evs2) = pauses evs1 + pauses evs2.
Proof. unfold pauses. now rewrite omap_app, length_app. Qed.

Lemma pauses_after r : pauses (pause_after r) <= 1.
Proof. destruct r; cbn; lia. Qed.

Section Service.

Context {W : Type}.
Variable requests_get : params -> W -> response * W.

Lemma search_loop_pauses queries : forall found_articles (st : state),
  exists evs,
    log (search_loop requests_get queries found_articles st).2
    = (log st ++ evs)%list
    /\ pauses evs <= length (requests evs)
    /\ head evs = (fun q => Get (mk_params q)) <$> head queries.
Proof.
  induction queries as [|q rest IH]; intros found st.
  - exists []. cbn. rewrite app_nil_r. repeat split. lia.
  - destruct (requests_get (mk_params q) (world st)) as [r w'] eqn:Hget.
    destruct (search_loop_step requests_get q rest found st r w' Hget)
      as [(a & ? & ? & ? & -> & _)|[(? & ? & ? & -> & _)|[-> _]]].
    + exists [Get (mk_params q)]. cbn. repeat split. lia.
    + exists [Get (mk_params q)]. cbn. repeat split. lia.
    + destruct (IH (found ++ option_list (top_result r))%list
                   {| world := w';
                      log := log st ++ Get (mk_params q) :: pause_after r |})
        as (evs & -> & Hp & _).
      exists ([Get (mk_params q)] ++ pause_after r ++ evs)%list.
      cbn [log]. split; [now rewrite <- !app_assoc|]. split; [|reflexivity].
      rewrite !pauses_app, !requests_app, !length_app, requests_pause.
      pose proof (pauses_after r). cbn. lia.
Qed.

End Service.

(** X20: a search starts with the request for the term itself, with no pause
    before it, and never makes more pauses than requests: a pause only
    follows a request. *)
Theorem search_pauses_follow_requests {W : Type}
    (requests_get : params -> W -> response * W)
    (query_term : string) (st : state) :
  exists evs,
    log (search_wikipedia_article requests_get query_term st).2
    = (log st ++ Get (mk_params query_term) :: evs)%list
    /\ pauses evs <= S (length (requests evs)).
Proof.
  unfold search_wikipedia_article.
  destruct (search_loop_pauses requests_get
              (search_queries_to_try query_term) [] st)
    as (evs & Hlog & Hp & Hhead).
  destruct (SearchClient_facts.search_queries_head query_term) as [rest Heq].
  rewrite Heq in *. cbn in Hhead.
  destruct evs as [|e evs]; [discriminate|]. injection Hhead as ->.
  exists evs. split; [exact Hlog|].
  unfold pauses, requests in *. cbn [omap list_omap] in Hp. cbn in Hp. lia.
Qed.

End SearchClient_relevance.
